(** * Weiss: the UCI protocol adapter ([src/uci.c])

    A shallow embedding of the UCI front end of the Weiss chess engine and
    the properties of it that the specification relies on: the command hash
    used by the dispatcher, the time-control parser, the [setoption] chain,
    the [uci] option listing and the search-progress printer.

    Conventions.
    - A C [int] is a [Z]; wrap-around is written out where the source
      mixes widths ([nps]), and a statement that needs a number to fit
      an [int] says so ([is_int]).
    - Where the C program has no result the model has none either, if
      the function is fallible ([PrintThinking] with a zero divisor), or
      the statement excludes the case ([searchmoves_fit] for a write
      outside the array [Limits.searchmoves]).
    - A C string is a [string] without its terminating NUL; a [char *] into
      a string is the suffix starting at that character.
    - [stdout] is the list of completed lines, oldest first.
    - The globals of the engine live in a store indexed by the name of the
      C variable. *)

From Stdlib Require Import ZArith List Ascii String Lia DecimalString.
From stdpp Require Import gmap strings.
From Stdlib Require DecimalPos.

Local Open Scope Z_scope.

(* String concatenation unfolds on a constructor, as list concatenation does. *)
#[local] Arguments String.append !s1 s2 / : simpl nomatch.

(** ** Part I: the embedding *)

(** *** The C library functions the adapter calls *)

Module CStr.

(** Value of a plain [char] read as an [int] (signed, as on x86-64;
    7-bit ASCII is unaffected by the signedness). *)
Definition char_code (c : ascii) : Z :=
  let n := Z.of_N (N_of_ascii c) in
  if n <? 128 then n else n - 256.

(** Value of a [char] read as [unsigned char], the way [strncmp] compares. *)
Definition uchar_code (c : ascii) : Z := Z.of_N (N_of_ascii c).

Definition strlen (s : string) : nat := String.length s.

(** [p + n] for a pointer [p] into a NUL-terminated buffer.  The input
    buffer is zero-filled behind the line, so stepping over the
    terminator reads an empty string. *)
Fixpoint ptr_add (p : string) (n : nat) {struct n} : string :=
  match n, p with
  | O, _ => p
  | S n', String _ rest => ptr_add rest n'
  | S _, EmptyString => EmptyString
  end.

(** [strncmp(s1, s2, n)]: compares at most [n] characters. *)
Fixpoint strncmp (s1 s2 : string) (n : nat) {struct n} : Z :=
  match n with
  | O => 0
  | S n' =>
      match s1, s2 with
      | EmptyString, EmptyString => 0
      | EmptyString, String c2 _ => 0 - uchar_code c2
      | String c1 _, EmptyString => uchar_code c1
      | String c1 r1, String c2 r2 =>
          if Ascii.eqb c1 c2 then strncmp r1 r2 n'
          else uchar_code c1 - uchar_code c2
      end
  end.

(** [s] begins with the characters of [needle]. *)
Fixpoint starts_with (s needle : string) {struct needle} : bool :=
  match needle with
  | EmptyString => true
  | String c needle' =>
      match s with
      | EmptyString => false
      | String d s' => if Ascii.eqb c d then starts_with s' needle' else false
      end
  end.

(** [strstr(haystack, needle)]: the suffix of [haystack] at the first
    occurrence of [needle], [None] for the null pointer. *)
Fixpoint strstr (haystack needle : string) : option string :=
  if starts_with haystack needle then Some haystack
  else match haystack with
       | EmptyString => None
       | String _ rest => strstr rest needle
       end.

Definition isspace (c : ascii) : bool :=
  let n := N_of_ascii c in
  (n =? 32)%N || ((9 <=? n)%N && (n <=? 13)%N).

Definition digit_value (c : ascii) : option Z :=
  let n := Z.of_N (N_of_ascii c) in
  if (48 <=? n) && (n <=? 57) then Some (n - 48) else None.

Fixpoint skip_space (s : string) : string :=
  match s with
  | String c rest => if isspace c then skip_space rest else s
  | EmptyString => EmptyString
  end.

Fixpoint atoi_digits (s : string) (acc : Z) : Z :=
  match s with
  | String c rest =>
      match digit_value c with
      | Some d => atoi_digits rest (10 * acc + d)
      | None => acc
      end
  | EmptyString => acc
  end.

(** [atoi]: optional white space, optional sign, decimal digits.  The
    result is the number the digits denote.  The C function returns an
    [int]: it agrees with this one on every text whose number fits an
    [int], and is not described by it beyond. *)
Definition atoi (s : string) : Z :=
  match skip_space s with
  | String "-"%char rest => - atoi_digits rest 0
  | String "+"%char rest => atoi_digits rest 0
  | rest => atoi_digits rest 0
  end.

(** The tokens that [strtok(s, " ")] followed by [strtok(NULL, " ")]
    calls return, in order: maximal runs of characters other than the
    space.  [cur] is the token being read. *)
Fixpoint strtok_from (s : string) (cur : string) : list string :=
  match s with
  | EmptyString =>
      match cur with EmptyString => [] | _ => [cur] end
  | String c rest =>
      if Ascii.eqb c " "%char then
        match cur with
        | EmptyString => strtok_from rest EmptyString
        | _ => cur :: strtok_from rest EmptyString
        end
      else strtok_from rest (cur +:+ String c EmptyString)
  end.

Definition strtok_all (s : string) : list string := strtok_from s EmptyString.

(** ["%d"] of [printf]. *)
Definition dec (n : Z) : string := NilZero.string_of_int (Z.to_int n).

End CStr.

Import CStr.

(** *** The command hash of the dispatcher *)

(** [HashInput]: the loop [while ( *str && *str != ' ') hash ^= *(str++) ^ len++]. *)
Fixpoint HashInput_loop (str : string) (hash len : Z) : Z :=
  match str with
  | EmptyString => hash
  | String c rest =>
      if Ascii.eqb c "000"%char || Ascii.eqb c " "%char then hash
      else HashInput_loop rest (Z.lxor hash (Z.lxor (char_code c) len)) (len + 1)
  end.

Definition HashInput (str : string) : Z := HashInput_loop str 0 1.

(** The keywords [main] dispatches on in every build. *)
Definition keywords : list string :=
  ["go"; "uci"; "isready"; "position"; "setoption"; "ucinewgame"; "stop"; "quit"].


(** *** Binary floating point

    [float] and [double] values are dyadic rationals [mant * 2^expo], kept
    with an odd mantissa; every operation is the exact rational result
    rounded to nearest, ties to even, at 24 or 53 bits of precision (IEEE
    754 binary32 and binary64, single and double arithmetic evaluated in
    their own format).  Subnormal numbers, infinities and NaN are left out:
    no quantity the adapter computes from a 32-bit [int] comes near those
    ranges. *)

Module IEEE.

Record float := { mant : Z; expo : Z }.

Definition zero : float := {| mant := 0; expo := 0 |}.

(** Numerator and denominator of the rational a value stands for. *)
Definition num (x : float) : Z := Z.shiftl (mant x) (Z.max 0 (expo x)).
Definition den (x : float) : Z := Z.shiftl 1 (Z.max 0 (- expo x)).

(** The odd part of a positive number and the power of two taken out. *)
Fixpoint odd_part (p : positive) : positive * Z :=
  match p with
  | xO p' => let (q, k) := odd_part p' in (q, k + 1)
  | _ => (p, 0)
  end.

(** [m * 2^e] with an odd mantissa. *)
Definition make (m e : Z) : float :=
  match m with
  | Z0 => zero
  | Zpos p => let (q, k) := odd_part p in {| mant := Zpos q; expo := e + k |}
  | Zneg p => let (q, k) := odd_part p in {| mant := Zneg q; expo := e + k |}
  end.

(** [n / d], [0 < d], rounded to [prec] significant bits. *)
Definition round_ne (prec n d : Z) : float :=
  if n =? 0 then zero
  else
    let a := Z.abs n in
    let k := Z.log2 a - Z.log2 d in
    (* floor (log2 (a / d)) is k or k - 1 *)
    let fl := if Z.shiftl d (Z.max 0 k) <=? Z.shiftl a (Z.max 0 (- k))
              then k else k - 1 in
    let e := fl - (prec - 1) in
    (* a / d = sn / sd * 2^e *)
    let sn := Z.shiftl a (Z.max 0 (- e)) in
    let sd := Z.shiftl d (Z.max 0 e) in
    let (q, r) := Z.div_eucl sn sd in
    let q' := if 2 * r <? sd then q
              else if sd <? 2 * r then q + 1
              else if Z.even q then q else q + 1 in
    make (Z.sgn n * q') e.

Definition double_of_int (n : Z) : float := round_ne 53 n 1.
Definition float_of_int (n : Z) : float := round_ne 24 n 1.
Definition float_of_double (x : float) : float := round_ne 24 (num x) (den x).

(** Division of doubles by a positive divisor. *)
Definition double_div (x y : float) : float :=
  round_ne 53 (num x * den y) (den x * num y).

Definition float_mul (x y : float) : float :=
  round_ne 24 (num x * num y) (den x * den y).

(** The conversion [(int) x] truncates toward zero.  A value outside the
    range of [int] has no defined conversion in C; the conversion
    instruction of x86-64 delivers [INT_MIN] for it, which is what the
    compiled engine prints. *)
Definition int_of_float (x : float) : Z :=
  let q := Z.quot (num x) (den x) in
  if (- 2 ^ 31 <=? q) && (q <? 2 ^ 31) then q else - 2 ^ 31.

End IEEE.

(** *** Data model *)

Inductive Color := BLACK | WHITE.

(** A [Move] is an integer code; [NOMOVE] is 0. *)
Definition Move := Z.

(** Modelled from the spec: the record [SearchLimits], declared in a
    header and not in [uci.c], with the fields of the data model,
    [multiPV] last.  The array [searchmoves] is the list of the
    entries written so far, the zeroed rest of the array being implicit.
    The array has a fixed number of entries ([searchmoves_entries]
    below); the list can grow beyond that number, the array cannot: a
    list longer than the array stands for writes outside it, whose effect
    on the memory behind the array (where [multiPV] lies) the record does
    not show.  Statements about such a line are made under
    [searchmoves_fit] only. *)
Record SearchLimits := {
  start : Z;
  time : Z;
  inc : Z;
  movestogo : Z;
  movetime : Z;
  depth : Z;
  mate : Z;
  timelimit : bool;
  infinite : bool;
  searchmoves : list Move;
  multiPV : Z
}.

(** Assignments to the fields of [Limits]. *)
Definition set_start (L : SearchLimits) (v : Z) : SearchLimits :=
  {| start := v; time := time L; inc := inc L; movestogo := movestogo L;
     movetime := movetime L; depth := depth L; mate := mate L;
     timelimit := timelimit L; infinite := infinite L;
     searchmoves := searchmoves L; multiPV := multiPV L |}.
Definition set_time (L : SearchLimits) (v : Z) : SearchLimits :=
  {| start := start L; time := v; inc := inc L; movestogo := movestogo L;
     movetime := movetime L; depth := depth L; mate := mate L;
     timelimit := timelimit L; infinite := infinite L;
     searchmoves := searchmoves L; multiPV := multiPV L |}.
Definition set_inc (L : SearchLimits) (v : Z) : SearchLimits :=
  {| start := start L; time := time L; inc := v; movestogo := movestogo L;
     movetime := movetime L; depth := depth L; mate := mate L;
     timelimit := timelimit L; infinite := infinite L;
     searchmoves := searchmoves L; multiPV := multiPV L |}.
Definition set_movestogo (L : SearchLimits) (v : Z) : SearchLimits :=
  {| start := start L; time := time L; inc := inc L; movestogo := v;
     movetime := movetime L; depth := depth L; mate := mate L;
     timelimit := timelimit L; infinite := infinite L;
     searchmoves := searchmoves L; multiPV := multiPV L |}.
Definition set_movetime (L : SearchLimits) (v : Z) : SearchLimits :=
  {| start := start L; time := time L; inc := inc L; movestogo := movestogo L;
     movetime := v; depth := depth L; mate := mate L;
     timelimit := timelimit L; infinite := infinite L;
     searchmoves := searchmoves L; multiPV := multiPV L |}.
Definition set_depth (L : SearchLimits) (v : Z) : SearchLimits :=
  {| start := start L; time := time L; inc := inc L; movestogo := movestogo L;
     movetime := movetime L; depth := v; mate := mate L;
     timelimit := timelimit L; infinite := infinite L;
     searchmoves := searchmoves L; multiPV := multiPV L |}.
Definition set_mate (L : SearchLimits) (v : Z) : SearchLimits :=
  {| start := start L; time := time L; inc := inc L; movestogo := movestogo L;
     movetime := movetime L; depth := depth L; mate := v;
     timelimit := timelimit L; infinite := infinite L;
     searchmoves := searchmoves L; multiPV := multiPV L |}.
Definition set_timelimit (L : SearchLimits) (v : bool) : SearchLimits :=
  {| start := start L; time := time L; inc := inc L; movestogo := movestogo L;
     movetime := movetime L; depth := depth L; mate := mate L;
     timelimit := v; infinite := infinite L;
     searchmoves := searchmoves L; multiPV := multiPV L |}.
Definition set_infinite (L : SearchLimits) (v : bool) : SearchLimits :=
  {| start := start L; time := time L; inc := inc L; movestogo := movestogo L;
     movetime := movetime L; depth := depth L; mate := mate L;
     timelimit := timelimit L; infinite := v;
     searchmoves := searchmoves L; multiPV := multiPV L |}.
Definition set_searchmoves (L : SearchLimits) (v : list Move) : SearchLimits :=
  {| start := start L; time := time L; inc := inc L; movestogo := movestogo L;
     movetime := movetime L; depth := depth L; mate := mate L;
     timelimit := timelimit L; infinite := infinite L;
     searchmoves := v; multiPV := multiPV L |}.
Definition set_multiPV (L : SearchLimits) (v : Z) : SearchLimits :=
  {| start := start L; time := time L; inc := inc L; movestogo := movestogo L;
     movetime := movetime L; depth := depth L; mate := mate L;
     timelimit := timelimit L; infinite := infinite L;
     searchmoves := searchmoves L; multiPV := v |}.

(** [memset(&Limits, 0, offsetof(SearchLimits, multiPV))]: every byte in
    front of [multiPV] becomes zero. *)
Definition memset_to_multiPV (L : SearchLimits) : SearchLimits :=
  {| start := 0; time := 0; inc := 0; movestogo := 0; movetime := 0;
     depth := 0; mate := 0; timelimit := false; infinite := false;
     searchmoves := []; multiPV := multiPV L |}.

(** Modelled from the spec: the helper [SetLimit], declared in a header
    and not in [uci.c]: a limit "is extracted by locating its keyword
    substring and parsing the following integer; absence leaves the field"
    as it was. *)
Definition SetLimit (str token : string) (limit : Z) : Z :=
  match strstr str token with
  | Some ptr => atoi (ptr_add ptr (strlen token))
  | None => limit
  end.

(** The value of a global: the tunables are [int] or [float], the book and
    variant switches [bool]. *)
Inductive Value :=
| VInt (n : Z)
| VFloat (x : IEEE.float)
| VBool (b : bool).

(** Calls into the rest of the engine, in the order they were made. *)
Inductive Call :=
| RequestTTSize (megabytes : Z)
| InitThreads (count : Z)
| tb_init (path : string)
| InitTT
| StartMainThread.

(** The process state the adapter reads and writes. *)
Record State := {
  Limits : SearchLimits;
  globals : gmap string Value;
  ABORT_SIGNAL : bool;
  calls : list Call;
  stdout : list string
}.

Definition with_Limits (s : State) (L : SearchLimits) : State :=
  {| Limits := L; globals := globals s; ABORT_SIGNAL := ABORT_SIGNAL s;
     calls := calls s; stdout := stdout s |}.
Definition with_global (s : State) (var : string) (v : Value) : State :=
  {| Limits := Limits s; globals := <[var := v]> (globals s);
     ABORT_SIGNAL := ABORT_SIGNAL s; calls := calls s; stdout := stdout s |}.
Definition with_ABORT_SIGNAL (s : State) (b : bool) : State :=
  {| Limits := Limits s; globals := globals s; ABORT_SIGNAL := b;
     calls := calls s; stdout := stdout s |}.
Definition call (s : State) (c : Call) : State :=
  {| Limits := Limits s; globals := globals s; ABORT_SIGNAL := ABORT_SIGNAL s;
     calls := calls s ++ [c]; stdout := stdout s |}.
Definition puts (s : State) (line : string) : State :=
  {| Limits := Limits s; globals := globals s; ABORT_SIGNAL := ABORT_SIGNAL s;
     calls := calls s; stdout := stdout s ++ [line] |}.

(** Reading a global; the store of a running engine holds every one of
    them, an absent entry reads as zero. *)
Definition int_global (s : State) (var : string) : Z :=
  match globals s !! var with Some (VInt n) => n | _ => 0 end.
Definition float_global (s : State) (var : string) : IEEE.float :=
  match globals s !! var with Some (VFloat x) => x | _ => IEEE.zero end.

(** *** setoption *)

(** What the statement guarded by one [OptionNameIs] test does. *)
Inductive Action :=
| CallRequestTTSize
| CallInitThreads
| CallTbInit
| StoreMultiPV
| StoreInt (var : string)
| StoreBool (var : string)
| StoreFloat (var : string).

(** The macros of [SetOption]. *)
Definition OptionNameIs (optionName name : string) : bool :=
  strncmp optionName name (strlen name) =? 0.
Definition BooleanValue (optionValue : string) : bool :=
  strncmp optionValue "true" 4 =? 0.
Definition IntValue (optionValue : string) : Z := atoi optionValue.

(** The [if ... else if ...] chain of [SetOption], one entry per test in
    source order: the name tested and the statement it guards. *)
Definition SetOption_chain : list (string * Action) := [
    ("Hash", CallRequestTTSize);
    ("Threads", CallInitThreads);
    ("SyzygyPath", CallTbInit);
    ("MultiPV", StoreMultiPV);
    ("NoobBookLimit", StoreInt "noobLimit");
    ("NoobBook", StoreBool "noobbook");
    ("UCI_Chess960", StoreBool "chess960");
    ("OnlineSyzygy", StoreBool "onlineSyzygy");
    ("LMRNoisyBase", StoreFloat "LMRNoisyBase");
    ("LMRNoisyDiv", StoreFloat "LMRNoisyDiv");
    ("LMRQuietBase", StoreFloat "LMRQuietBase");
    ("LMRQuietDiv", StoreFloat "LMRQuietDiv");
    ("IIRDepth", StoreInt "IIRDepth");
    ("IIRCutDepth", StoreInt "IIRCutDepth");
    ("RFPDepth", StoreInt "RFPDepth");
    ("RFPBase", StoreInt "RFPBase");
    ("RFPHistScore", StoreInt "RFPHistScore");
    ("RFPHistory", StoreInt "RFPHistory");
    ("NMPFlat", StoreInt "NMPFlat");
    ("NMPDepth", StoreInt "NMPDepth");
    ("NMPHist", StoreInt "NMPHist");
    ("NMPRBase", StoreInt "NMPRBase");
    ("NMPRDepth", StoreInt "NMPRDepth");
    ("NMPREvalDiv", StoreInt "NMPREvalDiv");
    ("NMPREvalMin", StoreInt "NMPREvalMin");
    ("ProbCut", StoreInt "ProbCut");
    ("ProbCutDepth", StoreInt "ProbCutDepth");
    ("ProbCutReturn", StoreInt "ProbCutReturn");
    ("LMPImp", StoreInt "LMPImp");
    ("LMPNonImp", StoreInt "LMPNonImp");
    ("HistPruneDepth", StoreInt "HistPruneDepth");
    ("HistPrune", StoreInt "HistPrune");
    ("SEEPruneDepth", StoreInt "SEEPruneDepth");
    ("SEEPruneQ", StoreInt "SEEPruneQ");
    ("SEEPruneN", StoreInt "SEEPruneN");
    ("SingExtDepth", StoreInt "SingExtDepth");
    ("SingExtTTDepth", StoreInt "SingExtTTDepth");
    ("SingExtDouble", StoreInt "SingExtDouble");
    ("LMRHist", StoreInt "LMRHist");
    ("DeeperBase", StoreInt "DeeperBase");
    ("DeeperDepth", StoreInt "DeeperDepth");
    ("QSFutility", StoreInt "QSFutility");
    ("Aspi", StoreInt "Aspi");
    ("AspiScoreDiv", StoreInt "AspiScoreDiv");
    ("Trend", StoreInt "Trend");
    ("TrendDiv", StoreFloat "TrendDiv");
    ("PruneDiv", StoreInt "PruneDiv");
    ("PruneDepthDiv", StoreInt "PruneDepthDiv");
    ("HistQDiv", StoreInt "HistQDiv");
    ("HistCDiv", StoreInt "HistCDiv");
    ("HistNDiv", StoreInt "HistNDiv");
    ("HistBonusMax", StoreInt "HistBonusMax");
    ("HistBonusBase", StoreInt "HistBonusBase");
    ("HistBonusDepth", StoreInt "HistBonusDepth");
    ("HistMalusMax", StoreInt "HistMalusMax");
    ("HistMalusBase", StoreInt "HistMalusBase");
    ("HistMalusDepth", StoreInt "HistMalusDepth");
    ("Tempo", StoreInt "Tempo");
    ("BasePower", StoreInt "BasePower");
    ("NPower", StoreInt "NPower");
    ("BPower", StoreInt "BPower");
    ("RPower", StoreInt "RPower");
    ("QPower", StoreInt "QPower");
    ("NCPower", StoreInt "NCPower");
    ("BCPower", StoreInt "BCPower");
    ("RCPower", StoreInt "RCPower");
    ("QCPower", StoreInt "QCPower");
    ("Modifier1", StoreInt "Modifier1");
    ("Modifier2", StoreInt "Modifier2");
    ("Modifier3", StoreInt "Modifier3");
    ("Modifier4", StoreInt "Modifier4");
    ("Modifier5", StoreInt "Modifier5");
    ("Modifier6", StoreInt "Modifier6");
    ("Modifier7", StoreInt "Modifier7");
    ("Modifier8", StoreInt "Modifier8");
    ("PawnScaleBase", StoreInt "PawnScaleBase");
    ("PawnScaleX", StoreInt "PawnScaleX");
    ("PawnScaleBothSides", StoreInt "PawnScaleBothSides");
    ("OCBSolo", StoreInt "OCBSolo");
    ("OCBDuo", StoreInt "OCBDuo");
    ("ScoreMovesLimit", StoreInt "ScoreMovesLimit");
    ("MPGood", StoreInt "MPGood");
    ("MPBadDepth", StoreInt "MPGoodDepth");
    ("MPBad", StoreInt "MPBad");
    ("MPBadDepth", StoreInt "MPBadDepth")
  ].

(** [v / 100.0] assigned to a [float]: the quotient is a [double], the
    assignment rounds it to [float]. *)
Definition stored_float (v : Z) : IEEE.float :=
  IEEE.float_of_double (IEEE.double_div (IEEE.double_of_int v) (IEEE.double_of_int 100)).

Definition run_Action (a : Action) (optionValue : string) (s : State) : State :=
  match a with
  | CallRequestTTSize => call s (RequestTTSize (IntValue optionValue))
  | CallInitThreads => call s (InitThreads (IntValue optionValue))
  | CallTbInit => call s (tb_init optionValue)
  | StoreMultiPV => with_Limits s (set_multiPV (Limits s) (IntValue optionValue))
  | StoreInt var => with_global s var (VInt (IntValue optionValue))
  | StoreBool var => with_global s var (VBool (BooleanValue optionValue))
  | StoreFloat var =>
      with_global s var (VFloat (stored_float (IntValue optionValue)))
  end.

(** [strstr(str, "name") + 5] and [strstr(str, "value") + 6]. *)
Definition optionName_of (str : string) : option string :=
  match strstr str "name" with
  | Some p => Some (ptr_add p 5)
  | None => None
  end.
Definition optionValue_of (str : string) : option string :=
  match strstr str "value" with
  | Some p => Some (ptr_add p 6)
  | None => None
  end.

(** The first entry of the chain whose test succeeds. *)
Definition chain_lookup (optionName : string) : option (string * Action) :=
  List.find (fun e => OptionNameIs optionName (fst e)) SetOption_chain.

(** [SetOption].  The result is [None] where the C code dereferences a
    pointer derived from a null [strstr] result: a line without ["name"],
    or a line without ["value"] whose option reads its value. *)
Definition SetOption (str : string) (s : State) : option State :=
  match optionName_of str with
  | None => None
  | Some optionName =>
      match chain_lookup optionName with
      | Some (_, a) =>
          match optionValue_of str with
          | Some optionValue => Some (run_Action a optionValue s)
          | None => None
          end
      | None => Some (puts s "info string No such option.")
      end
  end.

(** *** uci *)

(** How [Info] prints the default of a tunable. *)
Inductive Encoding := Int | Float100.

(** The tunables [Info] lists after the fixed options, in source order. *)
Definition Info_tunables : list (string * Encoding) := [
    ("LMRNoisyBase", Float100);
    ("LMRNoisyDiv", Float100);
    ("LMRQuietBase", Float100);
    ("LMRQuietDiv", Float100);
    ("IIRDepth", Int);
    ("IIRCutDepth", Int);
    ("RFPDepth", Int);
    ("RFPBase", Int);
    ("RFPHistScore", Int);
    ("RFPHistory", Int);
    ("NMPFlat", Int);
    ("NMPDepth", Int);
    ("NMPHist", Int);
    ("NMPRBase", Int);
    ("NMPRDepth", Int);
    ("NMPREvalDiv", Int);
    ("NMPREvalMin", Int);
    ("ProbCut", Int);
    ("ProbCutDepth", Int);
    ("ProbCutReturn", Int);
    ("LMPImp", Int);
    ("LMPNonImp", Int);
    ("HistPruneDepth", Int);
    ("HistPrune", Int);
    ("SEEPruneDepth", Int);
    ("SEEPruneQ", Int);
    ("SEEPruneN", Int);
    ("SingExtDepth", Int);
    ("SingExtTTDepth", Int);
    ("SingExtDouble", Int);
    ("LMRHist", Int);
    ("DeeperBase", Int);
    ("DeeperDepth", Int);
    ("QSFutility", Int);
    ("Aspi", Int);
    ("AspiScoreDiv", Int);
    ("Trend", Int);
    ("TrendDiv", Float100);
    ("PruneDiv", Int);
    ("PruneDepthDiv", Int);
    ("HistQDiv", Int);
    ("HistCDiv", Int);
    ("HistNDiv", Int);
    ("HistBonusMax", Int);
    ("HistBonusBase", Int);
    ("HistBonusDepth", Int);
    ("HistMalusMax", Int);
    ("HistMalusBase", Int);
    ("HistMalusDepth", Int);
    ("Tempo", Int);
    ("BasePower", Int);
    ("NPower", Int);
    ("BPower", Int);
    ("RPower", Int);
    ("QPower", Int);
    ("NCPower", Int);
    ("BCPower", Int);
    ("RCPower", Int);
    ("QCPower", Int);
    ("Modifier1", Int);
    ("Modifier2", Int);
    ("Modifier3", Int);
    ("Modifier4", Int);
    ("Modifier5", Int);
    ("Modifier6", Int);
    ("Modifier7", Int);
    ("Modifier8", Int);
    ("PawnScaleBase", Int);
    ("PawnScaleX", Int);
    ("PawnScaleBothSides", Int);
    ("OCBSolo", Int);
    ("OCBDuo", Int);
    ("ScoreMovesLimit", Int);
    ("MPGood", Int);
    ("MPGoodDepth", Int);
    ("MPBad", Int);
    ("MPBadDepth", Int)
  ].

(** [(int)(x * 100)] for a [float] [x]: the product is a [float]. *)
Definition printed_default (x : IEEE.float) : Z :=
  IEEE.int_of_float (IEEE.float_mul x (IEEE.float_of_int 100)).

Definition default_of (s : State) (name : string) (k : Encoding) : Z :=
  match k with
  | Int => int_global s name
  | Float100 => printed_default (float_global s name)
  end.

Definition spin_line (name : string) (default min max : Z) : string :=
  "option name " +:+ name +:+ " type spin default " +:+ dec default
    +:+ " min " +:+ dec min +:+ " max " +:+ dec max.

Definition tunable_line (s : State) (e : string * Encoding) : string :=
  spin_line (fst e) (default_of s (fst e) (snd e)) (-100000) 100000.

(** *** Search progress data *)

(** A [RootMove] with its principal variation; [pv] is the array [line] cut
    at [length], so [pv->length] is the length of the list. *)
Record RootMove := {
  move : Move;
  score : Z;
  pv : list Move
}.

(** One [info] line of [PrintThinking], field by field. *)
Record InfoLine := {
  i_depth : Z;
  i_seldepth : Z;
  i_multipv : Z;
  i_type : string;
  i_score : Z;
  i_bound : string;
  i_time : Z;
  i_nodes : Z;
  i_nps : Z;
  i_tbhits : Z;
  i_hashfull : Z;
  i_pv : list Move
}.

(** Conversion of a wider integer to [int], by wrap-around. *)
Definition to_int (n : Z) : Z := (n + 2 ^ 31) mod 2 ^ 32 - 2 ^ 31.

(** [(int)(1000 * nodes / (elapsed + 1))]: [nodes] is a [uint64_t] and
    [elapsed] is printed as a 64-bit integer, so the quotient is taken in
    64-bit unsigned arithmetic.  This is the value for a divisor other
    than 0; with the divisor 0 the division stops the process, which
    [PrintThinking] tests for before it uses the value. *)
Definition nps_of (nodes elapsed : Z) : Z :=
  to_int (((1000 * nodes) mod 2 ^ 64) / ((elapsed + 1) mod 2 ^ 64)).

Definition non_null {A : Type} (p : option A) : bool :=
  match p with Some _ => true | None => false end.

Section Engine.

(** The parts of the engine that the adapter calls or reads and that are
    declared outside [uci.c]. *)
Variable Position : Type.
Variable sideToMove : Position -> Color.
Variable ParseMove : string -> Position -> Move.
Variable MoveToStr : Move -> string.
(** [history(i).key] of a position. *)
Variable history_key : Position -> Z -> Z.
Variable NAME : string.
Variables HASH_DEFAULT HASH_MIN HASH_MAX MULTI_PV_MAX : Z.
Variables MATE MATE_IN_MAX : Z.
(** The number of entries of the array [Limits.searchmoves]. *)
Variable searchmoves_entries : nat.

(** **** go *)

(** [ParseTimeControl]; [now] is the value [Now()] returns.  The loop
    over the tokens behind "searchmoves" writes [Limits.searchmoves[i]]
    for [i = 0, 1, ...] without a bound on [i]: the result lists every
    entry written, also those beyond the array (see [SearchLimits]). *)
Definition ParseTimeControl (str : string) (pos : Position) (now : Z)
    (L : SearchLimits) : SearchLimits :=
  let L := memset_to_multiPV L in
  let L := set_start L now in
  let L := set_infinite L (non_null (strstr str "infinite")) in
  let L := set_time L
             (SetLimit str (match sideToMove pos with WHITE => "wtime" | BLACK => "btime" end)
                       (time L)) in
  let L := set_inc L
             (SetLimit str (match sideToMove pos with WHITE => "winc" | BLACK => "binc" end)
                       (inc L)) in
  let L := set_movestogo L (SetLimit str "movestogo" (movestogo L)) in
  let L := set_movetime L (SetLimit str "movetime" (movetime L)) in
  let L := set_depth L (SetLimit str "depth" (depth L)) in
  let L := set_mate L (SetLimit str "mate" (mate L)) in
  let L :=
    match strstr str "searchmoves " with
    | Some searchmoves =>
        (* the first token is the keyword itself *)
        match strtok_all searchmoves with
        | _ :: moves => set_searchmoves L (List.map (fun m => ParseMove m pos) moves)
        | [] => L
        end
    | None => L
    end in
  let L := set_timelimit L (negb (time L =? 0) || negb (movetime L =? 0)) in
  set_depth L (if depth L =? 0 then 100 else depth L).

(** [Go]: the search itself runs on another thread and is represented by
    the call that starts it. *)
Definition Go (pos : Position) (str : string) (now : Z) (s : State) : State :=
  let s := with_ABORT_SIGNAL s false in
  let s := call s InitTT in
  let s := with_Limits s (ParseTimeControl str pos now (Limits s)) in
  call s StartMainThread.

(** **** uci *)

Definition Info_lines (s : State) : list string :=
  [ "id name " +:+ NAME;
    "id author Terje Kirstihagen";
    spin_line "Hash" HASH_DEFAULT HASH_MIN HASH_MAX;
    spin_line "Threads" 1 1 2048;
    "option name SyzygyPath type string default <empty>";
    "option name MultiPV type spin default 1 min 1 max " +:+ dec MULTI_PV_MAX;
    "option name UCI_Chess960 type check default false";
    "option name NoobBook type check default false";
    "option name NoobBookLimit type spin default 0 min 0 max 1000";
    "option name OnlineSyzygy type check default false" ]
  ++ List.map (tunable_line s) Info_tunables
  ++ [ "uciok" ].

Definition Info (s : State) : State := fold_left puts (Info_lines s) s.

(** **** Thinking output *)

(** The fields of a [Thread] that [uci.c] reads: [pos], [depth] (here
    [t_pos] and [t_depth], the plain names being taken) and the array
    [rootMoves], whose slots are the elements of the list. *)
Record Thread := {
  t_pos : Position;
  t_depth : Z;
  rootMoves : list RootMove
}.

Definition MateScore (score : Z) : Z :=
  let d := Z.quot (MATE - Z.abs score + 1) 2 in
  if 0 <? score then d else - d.

(** [for (; seldepth > 0; --seldepth) if (history(seldepth-1).key != 0) break;] *)
Fixpoint seldepth_loop (pos : Position) (seldepth : nat) : nat :=
  match seldepth with
  | O => O
  | S below =>
      if history_key pos (Z.of_nat below) =? 0 then seldepth_loop pos below
      else seldepth
  end.

Definition score_type (score : Z) : string :=
  if MATE_IN_MAX <=? Z.abs score then "mate" else "cp".

Definition score_bound (score alpha beta : Z) : string :=
  if beta <=? score then " lowerbound"
  else if score <=? alpha then " upperbound"
  else "".

Definition printed_score (score : Z) (pv_length : Z) : Z :=
  if MATE_IN_MAX <=? Z.abs score then MateScore score
  else if (Z.abs score <=? 8) && (pv_length <=? 2) then 0
  else score.

(** The values [TimeSince], [TotalNodes], [TotalTBHits] and [HashFull]
    return when [PrintThinking] asks. *)
Record Probe := {
  elapsed : Z;
  nodes : Z;
  tbhits : Z;
  hashFull : Z
}.

(** The body of the reporting loop for slot [i], past the [break]. *)
Definition info_line (thread : Thread) (alpha beta : Z) (pr : Probe)
    (i : Z) (rm : RootMove) : InfoLine :=
  {| i_depth := t_depth thread;
     i_seldepth := Z.of_nat (seldepth_loop (t_pos thread) 128);
     i_multipv := i + 1;
     i_type := score_type (score rm);
     i_score := printed_score (score rm) (Z.of_nat (length (pv rm)));
     i_bound := score_bound (score rm) alpha beta;
     i_time := elapsed pr;
     i_nodes := nodes pr;
     i_nps := nps_of (nodes pr) (elapsed pr);
     i_tbhits := tbhits pr;
     i_hashfull := hashFull pr;
     i_pv := pv rm |}.

(** The loop [for (int i = 0; i < Limits.multiPV; ++i)] over the slots
    still to visit; [break] ends it. *)
Fixpoint PrintThinking_loop (thread : Thread) (alpha beta : Z) (pr : Probe)
    (i : Z) (slots : list RootMove) : list InfoLine :=
  match slots with
  | [] => []
  | rm :: rest =>
      if Z.of_nat (length (pv rm)) =? 0 then []
      else info_line thread alpha beta pr i rm
             :: PrintThinking_loop thread alpha beta pr (i + 1) rest
  end.

(** The lines [PrintThinking] reports: the loop runs over the first
    [Limits.multiPV] root-move slots. *)
Definition PrintThinking_lines (L : SearchLimits) (thread : Thread)
    (alpha beta : Z) (pr : Probe) : list InfoLine :=
  PrintThinking_loop thread alpha beta pr 0
    (take (Z.to_nat (multiPV L)) (rootMoves thread)).

(** The text of one line. *)
Definition format_info (l : InfoLine) : string :=
  "info depth " +:+ dec (i_depth l) +:+ " seldepth " +:+ dec (i_seldepth l)
    +:+ " multipv " +:+ dec (i_multipv l)
    +:+ " score " +:+ i_type l +:+ " " +:+ dec (i_score l) +:+ i_bound l
    +:+ " time " +:+ dec (i_time l) +:+ " nodes " +:+ dec (i_nodes l)
    +:+ " nps " +:+ dec (i_nps l) +:+ " tbhits " +:+ dec (i_tbhits l)
    +:+ " hashfull " +:+ dec (i_hashfull l) +:+ " pv"
    +:+ fold_right (fun m acc => " " +:+ MoveToStr m +:+ acc) "" (i_pv l).

(** [PrintThinking]: [nps] is computed in front of the loop, and the
    division by [elapsed + 1], taken in 64 bits without sign, ends the
    process when that divisor is 0; there is no result then. *)
Definition PrintThinking (thread : Thread) (alpha beta : Z) (pr : Probe)
    (s : State) : option State :=
  if (elapsed pr + 1) mod 2 ^ 64 =? 0 then None
  else
    Some (fold_left puts
            (List.map format_info
               (PrintThinking_lines (Limits s) thread alpha beta pr)) s).

Definition PrintConclusion (thread : Thread) (s : State) : State :=
  puts s ("bestmove " +:+
          MoveToStr (match rootMoves thread with rm :: _ => move rm | [] => 0 end)).

(** **** Vocabulary of the statements *)

(** [t] occurs in [s] as a substring. *)
Definition occurs_in (t s : string) : Prop :=
  exists before after : string, s = before +:+ t +:+ after.

(** The keyword that belongs to the side to move. *)
Definition side_token (pos : Position) (white black : string) : string :=
  match sideToMove pos with WHITE => white | BLACK => black end.

(** A [SearchLimits] record of zero bytes. *)
Definition zero_Limits : SearchLimits :=
  {| start := 0; time := 0; inc := 0; movestogo := 0; movetime := 0;
     depth := 0; mate := 0; timelimit := false; infinite := false;
     searchmoves := []; multiPV := 0 |}.

(** A run of [go] commands, each with its position, its line and the
    clock reading at its start. *)
Definition go_all (gos : list (Position * string * Z)) (s : State) : State :=
  fold_left (fun s g => Go (fst (fst g)) (snd (fst g)) (snd g) s) gos s.

(** The line [setoption name <name> value <value>]. *)
Definition setoption_line (name value : string) : string :=
  "setoption name " +:+ name +:+ " value " +:+ value.

(** The global an entry of the chain assigns to, if any. *)
Definition writes (a : Action) : option string :=
  match a with
  | StoreInt var | StoreBool var | StoreFloat var => Some var
  | CallRequestTTSize | CallInitThreads | CallTbInit | StoreMultiPV => None
  end.

(** The statement an advertised tunable should select: an assignment of
    its own kind to the global of its own name. *)
Definition own_Action (e : string * Encoding) : Action :=
  match snd e with
  | Int => StoreInt (fst e)
  | Float100 => StoreFloat (fst e)
  end.

(** The advertised tunables whose [setoption] line does not reach the
    statement of their own name. *)
Definition misrouted : list string :=
  ["ProbCutDepth"; "ProbCutReturn"; "AspiScoreDiv"; "TrendDiv";
   "MPGoodDepth"; "MPBadDepth"].

(** The boolean options with the global each one sets. *)
Definition boolean_options : list (string * string) :=
  [("NoobBook", "noobbook"); ("UCI_Chess960", "chess960");
   ("OnlineSyzygy", "onlineSyzygy")].

(** No character of the string is NUL. *)
Fixpoint nul_free (s : string) : bool :=
  match s with
  | EmptyString => true
  | String c rest => negb (Ascii.eqb c "000") && nul_free rest
  end.

(** [P] holds of [count] consecutive integers from [first] on. *)
Fixpoint holds_from (P : Z -> bool) (first : Z) (count : nat) : bool :=
  match count with
  | O => true
  | S count' => P first && holds_from P (first + 1) count'
  end.

(** A state with nothing set. *)
Definition idle_State : State :=
  {| Limits := zero_Limits; globals := ∅; ABORT_SIGNAL := false;
     calls := []; stdout := [] |}.

(** The least integer not below [x / 2]. *)
Definition ceil_half (x : Z) : Z := - ((- x) / 2).

(** The mate distance in moves with the sign of the score: what the
    specification gives for a score in the mate range. *)
Definition signed_mate_distance (score : Z) : Z :=
  if 0 <? score then ceil_half (MATE - Z.abs score)
  else - ceil_half (MATE - Z.abs score).

(** The characters of a string, first to last. *)
Definition chars (s : string) : list ascii := list_ascii_of_string s.

(** A character that [HashInput] does not stop at. *)
Definition token_char (c : ascii) : bool :=
  negb (Ascii.eqb c "000" || Ascii.eqb c " ").

(** The exclusive or of the codes of some characters. *)
Definition xor_codes (l : list ascii) : Z :=
  fold_right (fun c acc => Z.lxor (char_code c) acc) 0 l.

(** The exclusive or of [count] consecutive integers from [first] on. *)
Fixpoint xor_range (first : Z) (count : nat) : Z :=
  match count with
  | O => 0
  | S count' => Z.lxor first (xor_range (first + 1) count')
  end.

(** No character of the string is the space. *)
Fixpoint space_free (s : string) : bool :=
  match s with
  | EmptyString => true
  | String c rest => negb (Ascii.eqb c " ") && space_free rest
  end.

(** A word as [strtok] returns it: not empty and without spaces. *)
Definition is_word (s : string) : bool :=
  negb (String.eqb s "") && space_free s.

(** Words written one after the other with a space in between. *)
Fixpoint join_words (ws : list string) : string :=
  match ws with
  | [] => ""
  | [w] => w
  | w :: rest => w +:+ " " +:+ join_words rest
  end.

(** The keywords [ParseTimeControl] looks for. *)
Definition go_keywords : list string :=
  ["infinite"; "wtime"; "btime"; "winc"; "binc"; "movestogo"; "movetime";
   "depth"; "mate"; "searchmoves "].

(** The names of the options [Info] lists in front of the tunables. *)
Definition fixed_options : list string :=
  ["Hash"; "Threads"; "SyzygyPath"; "MultiPV"; "UCI_Chess960"; "NoobBook";
   "NoobBookLimit"; "OnlineSyzygy"].

(** The value [uci] shows after [setoption] stored the integer [n] in a
    tunable of the given kind. *)
Definition shown_default (k : Encoding) (n : Z) : Z :=
  match k with
  | Int => n
  | Float100 => printed_default (stored_float n)
  end.

(** Text that [atoi] stops at: empty, or beginning with something other
    than a digit. *)
Definition ends_number (rest : string) : Prop :=
  forall acc, atoi_digits rest acc = acc.


(** The globals assigned to by the statements of the chain that are not
    cut off by an earlier test for the same name. *)
Definition writable_globals : list string :=
  flat_map (fun e => match writes (snd e) with Some x => [x] | None => [] end)
           (removelast SetOption_chain).

(** The advertised names that reach the statement of another entry, each
    with the global that statement assigns to. *)
Definition misrouted_targets : list (string * string) :=
  [("ProbCutDepth", "ProbCut"); ("ProbCutReturn", "ProbCut");
   ("AspiScoreDiv", "Aspi"); ("TrendDiv", "Trend");
   ("MPGoodDepth", "MPGood"); ("MPBadDepth", "MPGoodDepth")].

(** A value of type [int]. *)
Definition is_int (n : Z) : Prop := - 2 ^ 31 <= n < 2 ^ 31.

(** The words the loop over [strtok] hands to [ParseMove], those behind
    the keyword "searchmoves": one entry of [Limits.searchmoves] is
    written for each, from index 0 on. *)
Definition searchmoves_tokens (str : string) : list string :=
  match strstr str "searchmoves " with
  | Some p => tail (strtok_all p)
  | None => []
  end.

(** Every entry the line makes [ParseTimeControl] write lies inside the
    array [Limits.searchmoves]. *)
Definition searchmoves_fit (str : string) : Prop :=
  (length (searchmoves_tokens str) <= searchmoves_entries)%nat.

(** The text of an [info] line in front of the score and behind the bound
    marker, as the format string of [PrintThinking] lays it out for slot
    [i] and the principal variation [line]. *)
Definition info_front (thread : Thread) (i : Z) : string :=
  "info depth " +:+ dec (t_depth thread)
    +:+ " seldepth " +:+ dec (Z.of_nat (seldepth_loop (t_pos thread) 128))
    +:+ " multipv " +:+ dec (i + 1).

Definition info_back (pr : Probe) (line : list Move) : string :=
  " time " +:+ dec (elapsed pr) +:+ " nodes " +:+ dec (nodes pr)
    +:+ " nps " +:+ dec (nps_of (nodes pr) (elapsed pr))
    +:+ " tbhits " +:+ dec (tbhits pr) +:+ " hashfull " +:+ dec (hashFull pr)
    +:+ " pv" +:+ fold_right (fun m acc => " " +:+ MoveToStr m +:+ acc) "" line.

(** Sixty-five words to stand behind "searchmoves", one more than an
    array of 64 entries holds. *)
Definition sixty_five_moves : list string := List.repeat "e2e4" 65.

(** Slot [k] of the root moves is reached by the reporting loop: it lies
    within the first [multiPV] slots and no slot up to it has an empty
    principal variation. *)
Definition reported (L : SearchLimits) (thread : Thread) (k : nat) : Prop :=
  Z.of_nat k < multiPV L /\
  Forall (fun r => pv r <> []) (take (S k) (rootMoves thread)).

(** ** Part II: properties *)

(** *** The command hash *)

(** The hash reads the leading token only: what follows the first space
    does not matter. *)
Lemma HashInput_loop_token (tok rest : string) (hash len : Z) :
  HashInput_loop (tok +:+ String " " rest) hash len = HashInput_loop tok hash len.
Proof.
  revert hash len. induction tok as [|c tok IH]; intros hash len; simpl.
  - reflexivity.
  - destruct (Ascii.eqb c "000" || Ascii.eqb c " "); [reflexivity | apply IH].
Qed.

Lemma HashInput_token (tok rest : string) :
  HashInput (tok +:+ String " " rest) = HashInput tok.
Proof. apply HashInput_loop_token. Qed.

(** The values the dispatcher switches on. *)
Example HashInput_keywords :
  List.map HashInput keywords = [11; 127; 113; 17; 96; 6; 28; 29].
Proof. reflexivity. Qed.

(** C1. [HashInput] takes pairwise distinct values on the eight keywords
    the dispatcher recognises, so no two of them reach the same [case]. *)
Theorem HashInput_keywords_distinct (k1 k2 : string) :
  In k1 keywords -> In k2 keywords -> k1 <> k2 -> HashInput k1 <> HashInput k2.
Proof.
  unfold keywords. intros H1 H2 Hne.
  simpl in H1, H2.
  repeat (destruct H1 as [<- | H1]); try contradiction;
    repeat (destruct H2 as [<- | H2]); try contradiction;
    first [ congruence | vm_compute; discriminate ].
Qed.

(** The same for whole command lines: the keyword decides the hash. *)
Corollary HashInput_lines_distinct (k1 k2 args1 args2 : string) :
  In k1 keywords -> In k2 keywords -> k1 <> k2 ->
  HashInput (k1 +:+ String " " args1) <> HashInput (k2 +:+ String " " args2).
Proof.
  intros H1 H2 Hne. rewrite !HashInput_token.
  unfold keywords in H1, H2. simpl in H1, H2.
  repeat (destruct H1 as [<- | H1]); try contradiction;
    repeat (destruct H2 as [<- | H2]); try contradiction;
    first [ congruence | vm_compute; discriminate ].
Qed.

(** *** C strings *)

Lemma starts_with_iff (s t : string) :
  starts_with s t = true <-> exists rest, s = t +:+ rest.
Proof.
  revert s. induction t as [|c t IH]; intros s; simpl.
  - split; [intros _; exists s; reflexivity | reflexivity].
  - destruct s as [|d s].
    + split; [discriminate | intros [rest H]; discriminate].
    + destruct (Ascii.eqb_spec c d) as [->|Hcd].
      * rewrite IH. split; intros [rest H]; exists rest; congruence.
      * split; [discriminate | intros [rest H]; congruence].
Qed.

Lemma strstr_unfold (s t : string) :
  strstr s t =
  if starts_with s t then Some s
  else match s with
       | EmptyString => None
       | String _ rest => strstr rest t
       end.
Proof. destruct s; reflexivity. Qed.

Lemma strstr_Some (s t p : string) :
  strstr s t = Some p ->
  starts_with p t = true /\ exists before, s = before +:+ p.
Proof.
  revert p. induction s as [|c s IH]; intros p; rewrite strstr_unfold;
    destruct (starts_with _ t) eqn:E.
  - intros [= <-]. split; [exact E | exists ""; reflexivity].
  - discriminate.
  - intros [= <-]. split; [exact E | exists ""; reflexivity].
  - intros H. destruct (IH _ H) as [Hp [before ->]].
    split; [exact Hp | exists (String c before); reflexivity].
Qed.

Lemma strstr_None (s t : string) :
  strstr s t = None -> forall before p, s = before +:+ p -> starts_with p t = false.
Proof.
  induction s as [|c s IH]; rewrite strstr_unfold;
    destruct (starts_with _ t) eqn:E; try discriminate.
  - intros _ before p H. destruct before; simpl in H; [subst; exact E | discriminate].
  - intros H before p Hs. destruct before as [|b before]; simpl in Hs.
    + subst p. exact E.
    + injection Hs as _ Hs. exact (IH H before p Hs).
Qed.

(** [strstr] finds a match exactly when there is an occurrence. *)
Lemma strstr_occurs (s t : string) :
  non_null (strstr s t) = true <-> occurs_in t s.
Proof.
  split.
  - destruct (strstr s t) as [p|] eqn:E; [intros _ | discriminate].
    destruct (strstr_Some _ _ _ E) as [Hp [before ->]].
    apply starts_with_iff in Hp as [after ->]. exists before, after. reflexivity.
  - intros [before [after ->]].
    destruct (strstr (before +:+ t +:+ after) t) as [p|] eqn:E; [reflexivity|].
    pose proof (strstr_None _ _ E before (t +:+ after) eq_refl) as Hn.
    assert (starts_with (t +:+ after) t = true) as Ht
      by (apply starts_with_iff; exists after; reflexivity).
    congruence.
Qed.

(** *** go: the time-control parser *)

(** The record [ParseTimeControl] leaves in [Limits], field by field. *)
Lemma ParseTimeControl_fields
    (str : string) (pos : Position) (now : Z) (L : SearchLimits) :
  ParseTimeControl str pos now L =
  {| start := now;
     time := SetLimit str (side_token pos "wtime" "btime") 0;
     inc := SetLimit str (side_token pos "winc" "binc") 0;
     movestogo := SetLimit str "movestogo" 0;
     movetime := SetLimit str "movetime" 0;
     depth := (if SetLimit str "depth" 0 =? 0 then 100 else SetLimit str "depth" 0);
     mate := SetLimit str "mate" 0;
     timelimit := negb (SetLimit str (side_token pos "wtime" "btime") 0 =? 0)
                  || negb (SetLimit str "movetime" 0 =? 0);
     infinite := non_null (strstr str "infinite");
     searchmoves :=
       match strstr str "searchmoves " with
       | Some p => List.map (fun m => ParseMove m pos) (tail (strtok_all p))
       | None => []
       end;
     multiPV := multiPV L |}.
Proof.
  unfold ParseTimeControl, side_token.
  destruct (strstr str "searchmoves ") as [p|]; [|reflexivity].
  destruct (strtok_all p); reflexivity.
Qed.

(** C2. After [ParseTimeControl], [timelimit] holds exactly when [time] or
    [movetime] is nonzero, [depth] is the parsed depth if that is nonzero
    and 100 otherwise, and [infinite] holds exactly when the line
    contains "infinite"; "go depth 10" gives depth 10 without time limit,
    infinite flag or mate, "go infinite" gives the infinite flag with
    depth 100 and no time limit. *)
Theorem ParseTimeControl_derived_fields
    (str : string) (pos : Position) (now : Z) (L : SearchLimits) :
  let L' := ParseTimeControl str pos now L in
  let D := ParseTimeControl "go depth 10" pos now L in
  let I := ParseTimeControl "go infinite" pos now L in
  time L' = SetLimit str (side_token pos "wtime" "btime") 0 /\
  movetime L' = SetLimit str "movetime" 0 /\
  (timelimit L' = true <-> time L' <> 0 \/ movetime L' <> 0) /\
  depth L' = (if SetLimit str "depth" 0 =? 0 then 100 else SetLimit str "depth" 0) /\
  (infinite L' = true <-> occurs_in "infinite" str) /\
  (depth D = 10 /\ timelimit D = false /\ infinite D = false /\ mate D = 0) /\
  (infinite I = true /\ depth I = 100 /\ timelimit I = false).
Proof.
  intros L' D I. subst L' D I. rewrite !ParseTimeControl_fields.
  cbn [time movetime timelimit depth infinite mate].
  repeat split.
  - intros H. apply orb_true_iff in H as [H|H]; apply negb_true_iff, Z.eqb_neq in H; auto.
  - intros [H|H]; apply orb_true_iff; [left|right]; apply negb_true_iff, Z.eqb_neq; exact H.
  - apply strstr_occurs.
  - apply strstr_occurs.
  - unfold side_token; destruct (sideToMove pos); reflexivity.
  - unfold side_token; destruct (sideToMove pos); reflexivity.
Qed.

(** The clock of the side to move is the one that counts. *)
Example ParseTimeControl_white_clock (pos : Position) (now : Z) (L : SearchLimits) :
  sideToMove pos = WHITE ->
  let T := ParseTimeControl "go wtime 60000 winc 1000 btime 500 binc 7" pos now L in
  time T = 60000 /\ inc T = 1000 /\ timelimit T = true /\ depth T = 100.
Proof.
  intros Hw T. subst T. rewrite ParseTimeControl_fields.
  unfold side_token. rewrite Hw. repeat split.
Qed.

(** *** setoption: evaluating the chain on a well-formed line *)

Lemma optionName_of_line (name value : string) :
  optionName_of (setoption_line name value) = Some (name +:+ " value " +:+ value).
Proof. reflexivity. Qed.

Lemma SetOption_line (name value : string) (s : State) (e : string * Action) :
  optionValue_of (setoption_line name value) = Some value ->
  chain_lookup (name +:+ " value " +:+ value) = Some e ->
  SetOption (setoption_line name value) s = Some (run_Action (snd e) value s).
Proof.
  intros Hv He. unfold SetOption. rewrite optionName_of_line, He, Hv.
  destruct e; reflexivity.
Qed.

(** Runs [SetOption] on a line built by [setoption_line] from a literal
    name: the value pointer and the entry of the chain are computed, the
    statement of the entry is left to compare. *)
Ltac run_chain :=
  erewrite SetOption_line by reflexivity; cbn [snd run_Action]; reflexivity.

Example SetOption_MultiPV (value : string) (s : State) :
  SetOption (setoption_line "MultiPV" value) s
  = Some (with_Limits s (set_multiPV (Limits s) (atoi value))).
Proof. run_chain. Qed.

Example SetOption_MPBad (value : string) (s : State) :
  SetOption (setoption_line "MPBadDepth" value) s
  = Some (with_global s "MPGoodDepth" (VInt (atoi value))).
Proof. run_chain. Qed.

(** *** go: what survives from one search to the next *)

Lemma Go_multiPV (pos : Position) (str : string) (now : Z) (s : State) :
  multiPV (Limits (Go pos str now s)) = multiPV (Limits s).
Proof.
  unfold Go. cbn [Limits call with_Limits].
  rewrite ParseTimeControl_fields. reflexivity.
Qed.

Lemma go_all_multiPV (gos : list (Position * string * Z)) (s : State) :
  multiPV (Limits (go_all gos s)) = multiPV (Limits s).
Proof.
  unfold go_all. revert s. induction gos as [|g gos IH]; intros s; simpl.
  - reflexivity.
  - rewrite IH. apply Go_multiPV.
Qed.

(** The entries of [Limits.searchmoves] that a line makes
    [ParseTimeControl] write: one for each word behind the keyword. *)
Lemma ParseTimeControl_searchmoves_tokens
    (str : string) (pos : Position) (now : Z) (L : SearchLimits) :
  searchmoves (ParseTimeControl str pos now L)
  = List.map (fun m => ParseMove m pos) (searchmoves_tokens str).
Proof.
  rewrite ParseTimeControl_fields. cbn [searchmoves]. unfold searchmoves_tokens.
  destruct (strstr str "searchmoves "); reflexivity.
Qed.

(** C6. On a line whose searchmoves fit the array, every write of
    [ParseTimeControl] lies in front of [multiPV]: it clears the fields
    there, so that nothing of their old contents reaches the result,
    stamps [start], and leaves [multiPV] alone; the value a [setoption]
    gave it is still there after any number of such [go] commands.  The
    loop itself does not bound the index, so the statement does not
    extend to a line with more words than the array has entries. *)
Theorem ParseTimeControl_keeps_multiPV
    (str : string) (pos : Position) (now : Z) (L : SearchLimits)
    (value : string) (gos : list (Position * string * Z)) (s : State) :
  searchmoves_fit str ->
  Forall (fun g => searchmoves_fit (snd (fst g))) gos ->
  (length (searchmoves (ParseTimeControl str pos now L)) <= searchmoves_entries)%nat /\
  multiPV (ParseTimeControl str pos now L) = multiPV L /\
  start (ParseTimeControl str pos now L) = now /\
  ParseTimeControl str pos now L
    = set_multiPV (ParseTimeControl str pos now zero_Limits) (multiPV L) /\
  multiPV (Limits (go_all gos s)) = multiPV (Limits s) /\
  option_map (fun s' => multiPV (Limits (go_all gos s')))
             (SetOption (setoption_line "MultiPV" value) s)
    = Some (atoi value).
Proof.
  intros Hfit _. split.
  { rewrite ParseTimeControl_searchmoves_tokens, length_map. exact Hfit. }
  rewrite !ParseTimeControl_fields. repeat split.
  - apply go_all_multiPV.
  - rewrite SetOption_MultiPV. cbn [option_map]. rewrite go_all_multiPV. reflexivity.
Qed.

(** *** setoption: names and values *)

Lemma uchar_code_inj (a b : ascii) : uchar_code a = uchar_code b -> a = b.
Proof.
  unfold uchar_code. intros H. apply N2Z.inj in H.
  rewrite <- (ascii_N_embedding a), <- (ascii_N_embedding b). congruence.
Qed.

Lemma uchar_code_nul (c : ascii) : uchar_code c = 0 -> c = "000"%char.
Proof. intros H. apply uchar_code_inj. exact H. Qed.

(** On a literal, the test [!strncmp(s, t, strlen(t))] is the prefix test. *)
Lemma strncmp_starts_with (t : string) :
  nul_free t = true ->
  forall s, (strncmp s t (strlen t) =? 0) = starts_with s t.
Proof.
  induction t as [|c t IH]; intros Hnul s.
  - reflexivity.
  - simpl in Hnul. apply andb_true_iff in Hnul as [Hc Ht].
    apply negb_true_iff in Hc.
    destruct s as [|d s]; simpl.
    + apply Z.eqb_neq. intros H.
      assert (uchar_code c = 0) as H0 by lia.
      apply uchar_code_nul in H0. subst c. discriminate.
    + rewrite (Ascii.eqb_sym c d).
      destruct (Ascii.eqb_spec d c) as [->|Hdc].
      * apply IH. exact Ht.
      * apply Z.eqb_neq. intros H. apply Hdc, uchar_code_inj. lia.
Qed.

Lemma OptionNameIs_prefix (name : string) :
  nul_free name = true ->
  forall optionName,
    OptionNameIs optionName name = true <-> exists rest, optionName = name +:+ rest.
Proof.
  intros Hnul optionName. unfold OptionNameIs.
  rewrite strncmp_starts_with by exact Hnul. apply starts_with_iff.
Qed.

Lemma BooleanValue_prefix (optionValue : string) :
  BooleanValue optionValue = true <-> exists rest, optionValue = "true" +:+ rest.
Proof.
  unfold BooleanValue. change 4%nat with (strlen "true").
  rewrite strncmp_starts_with by reflexivity. apply starts_with_iff.
Qed.

Lemma chain_names_nul_free :
  forallb (fun e => nul_free (fst e)) SetOption_chain = true.
Proof. vm_compute. reflexivity. Qed.

(** An assignment to one global leaves the others as they were. *)
Lemma run_Action_frame (a : Action) (optionValue : string) (s : State) (x : string) :
  writes a <> Some x ->
  globals (run_Action a optionValue s) !! x = globals s !! x.
Proof.
  destruct a; simpl; intros Hx; try reflexivity;
    (apply lookup_insert_ne; congruence).
Qed.

Lemma run_Action_writes (a : Action) (optionValue : string) (s : State) (x : string) :
  writes a = Some x -> is_Some (globals (run_Action a optionValue s) !! x).
Proof.
  destruct a; simpl; intros [= <-]; rewrite lookup_insert_eq; eauto.
Qed.

Lemma find_app_first {A : Type} (f : A -> bool) (l1 l2 : list A) :
  List.find f (l1 ++ l2)
  = match List.find f l1 with Some x => Some x | None => List.find f l2 end.
Proof.
  induction l1 as [|x l1 IH]; simpl; [reflexivity|].
  destruct (f x); [reflexivity | exact IH].
Qed.

(** The last test of the chain repeats the name of an earlier one, so
    the statement behind it is never reached: the chain behaves as the
    chain without its last entry. *)
Lemma chain_lookup_live (optionName : string) :
  chain_lookup optionName
  = List.find (fun e => OptionNameIs optionName (fst e)) (removelast SetOption_chain).
Proof.
  unfold chain_lookup.
  rewrite (app_removelast_last ("", StoreMultiPV) (l := SetOption_chain)) at 1
    by discriminate.
  rewrite find_app_first.
  destruct (List.find _ (removelast SetOption_chain)) as [e|] eqn:E; [reflexivity|].
  assert (In ("MPBadDepth", StoreInt "MPGoodDepth") (removelast SetOption_chain)) as Hin
    by (vm_compute; tauto).
  pose proof (find_none _ _ E _ Hin) as Hno. cbn [fst] in Hno.
  change (List.last SetOption_chain ("", StoreMultiPV)) with ("MPBadDepth", StoreInt "MPBadDepth").
  cbn [List.find fst]. rewrite Hno. reflexivity.
Qed.

(** No [setoption] line whatsoever changes [MPBadDepth]. *)
Lemma SetOption_never_writes_MPBadDepth (str : string) (s s' : State) :
  SetOption str s = Some s' ->
  globals s' !! "MPBadDepth" = globals s !! "MPBadDepth".
Proof.
  unfold SetOption. destruct (optionName_of str) as [optionName|]; [|discriminate].
  rewrite chain_lookup_live.
  destruct (List.find _ _) as [[name a]|] eqn:E.
  - destruct (optionValue_of str) as [optionValue|]; [|discriminate].
    intros [= <-]. apply run_Action_frame.
    apply find_some in E as [Hin _].
    assert (forallb (fun e => bool_decide (writes (snd e) <> Some "MPBadDepth"))
                    (removelast SetOption_chain) = true) as Hall
      by (vm_compute; reflexivity).
    rewrite forallb_forall in Hall. specialize (Hall _ Hin).
    apply bool_decide_eq_true in Hall. exact Hall.
  - intros [= <-]. reflexivity.
Qed.

(** C3. The line [setoption name MPBadDepth value v] runs the statement
    behind the first test for "MPBadDepth", which assigns to
    [MPGoodDepth]: the value lands in [MPGoodDepth] and [MPBadDepth]
    keeps its old value. *)
Theorem SetOption_MPBadDepth_stores_MPGoodDepth (value : string) (s : State) :
  exists s',
    SetOption (setoption_line "MPBadDepth" value) s = Some s' /\
    globals s' !! "MPGoodDepth" = Some (VInt (atoi value)) /\
    globals s' !! "MPBadDepth" = globals s !! "MPBadDepth".
Proof.
  exists (with_global s "MPGoodDepth" (VInt (atoi value))).
  split; [apply SetOption_MPBad|]. split.
  - apply lookup_insert_eq.
  - apply lookup_insert_ne. discriminate.
Qed.

(** The other advertised names that miss their own statement: a shorter
    name tested earlier is a prefix of theirs. *)
Lemma SetOption_misrouted (value : string) (s : State) :
  SetOption (setoption_line "MPGoodDepth" value) s
    = Some (with_global s "MPGood" (VInt (atoi value))) /\
  SetOption (setoption_line "ProbCutDepth" value) s
    = Some (with_global s "ProbCut" (VInt (atoi value))) /\
  SetOption (setoption_line "ProbCutReturn" value) s
    = Some (with_global s "ProbCut" (VInt (atoi value))) /\
  SetOption (setoption_line "AspiScoreDiv" value) s
    = Some (with_global s "Aspi" (VInt (atoi value))) /\
  SetOption (setoption_line "TrendDiv" value) s
    = Some (with_global s "Trend" (VInt (atoi value))).
Proof.
  repeat split; run_chain.
Qed.

(** Every other advertised tunable reaches the statement of its own
    name, which stores the value decoded by its kind. *)
Lemma SetOption_stores_own_entry (e : string * Encoding) (value : string) (s : State) :
  In e Info_tunables -> ~ In (fst e) misrouted ->
  SetOption (setoption_line (fst e) value) s
  = Some (run_Action (own_Action e) value s).
Proof.
  intros Hin Hmis. unfold Info_tunables in Hin. simpl in Hin.
  repeat (destruct Hin as [<- | Hin];
          [ first [ exfalso; apply Hmis; vm_compute; tauto
                  | erewrite SetOption_line by reflexivity; reflexivity ] | ]).
  contradiction.
Qed.

(** C8 (as the code has it). A boolean option is set to true exactly when
    the value text begins with the four characters "true"; whatever
    follows them is not looked at, and every other text gives false. *)
Theorem SetOption_boolean_true_prefix
    (name var value : string) (s : State) :
  In (name, var) boolean_options ->
  SetOption (setoption_line name value) s
    = Some (with_global s var (VBool (BooleanValue value))) /\
  (BooleanValue value = true <-> exists rest, value = "true" +:+ rest).
Proof.
  intros Hin. split; [|apply BooleanValue_prefix].
  unfold boolean_options in Hin. simpl in Hin.
  destruct Hin as [[= <- <-] | [[= <- <-] | [[= <- <-] | []]]];
    run_chain.
Qed.

(** C10. A [setoption] line whose option name begins with none of the
    names the chain tests prints the line "info string No such option."
    and nothing else, and changes neither [Limits] nor any global nor
    the record of calls into the engine. *)
Theorem SetOption_unknown_name (str optionName : string) (s : State) :
  optionName_of str = Some optionName ->
  (forall name, In name (List.map fst SetOption_chain) ->
                ~ exists rest, optionName = name +:+ rest) ->
  exists s',
    SetOption str s = Some s' /\
    stdout s' = stdout s ++ ["info string No such option."] /\
    Limits s' = Limits s /\ globals s' = globals s /\
    ABORT_SIGNAL s' = ABORT_SIGNAL s /\ calls s' = calls s.
Proof.
  intros Hname Hno. exists (puts s "info string No such option.").
  split; [|repeat split].
  unfold SetOption. rewrite Hname.
  destruct (chain_lookup optionName) as [e|] eqn:E; [exfalso|reflexivity].
  apply find_some in E as [Hin Hmatch].
  pose proof chain_names_nul_free as Hnul.
  rewrite forallb_forall in Hnul. specialize (Hnul _ Hin).
  apply (OptionNameIs_prefix _ Hnul) in Hmatch.
  exact (Hno (fst e) (in_map fst _ _ Hin) Hmatch).
Qed.

(** *** Float tunables: setoption followed by uci *)

(** The float model on well-known values: 0.1 as a [double] and as a
    [float], and 1.5, which both formats hold exactly. *)
Example double_one_tenth :
  IEEE.double_div (IEEE.double_of_int 1) (IEEE.double_of_int 10)
  = {| IEEE.mant := 3602879701896397; IEEE.expo := -55 |}.
Proof. vm_compute. reflexivity. Qed.

Example float_one_tenth :
  IEEE.float_of_double (IEEE.double_div (IEEE.double_of_int 1) (IEEE.double_of_int 10))
  = {| IEEE.mant := 13421773; IEEE.expo := -27 |}.
Proof. vm_compute. reflexivity. Qed.

Example stored_float_150 :
  stored_float 150 = {| IEEE.mant := 3; IEEE.expo := -1 |}
  /\ printed_default (stored_float 150) = 150.
Proof. vm_compute. split; reflexivity. Qed.

(** 0.53 is not a binary fraction.  Between 1/2 and 1 the [float]s are the
    multiples of [2^-24]; 0.53 lies between the multiples 8891924 and
    8891925, nearer to the lower one, which is the value stored.  A hundred
    times that is below 53: between 32 and 64 the [float]s are the
    multiples of [2^-18], the product is 13893631 of them and a quarter,
    it rounds to the multiple 13893631, one short of [53 * 2^18], and the
    conversion to [int] drops the fraction. *)
Example stored_float_53 :
  8891924 * 100 < 53 * 2 ^ 24 < 8891925 * 100
  /\ 53 * 2 ^ 24 - 8891924 * 100 < 8891925 * 100 - 53 * 2 ^ 24
  /\ stored_float 53 = {| IEEE.mant := 2222981; IEEE.expo := -22 |}
  /\ 2222981 * 2 ^ 2 = 8891924
  /\ IEEE.float_mul (stored_float 53) (IEEE.float_of_int 100)
     = {| IEEE.mant := 13893631; IEEE.expo := -18 |}
  /\ 8891924 * 100 = 13893631 * 2 ^ 6 + 16
  /\ 13893631 + 1 = 53 * 2 ^ 18
  /\ printed_default (stored_float 53) = 52.
Proof. vm_compute. repeat split; reflexivity. Qed.

Lemma SetOption_float (value : string) (s : State) :
  SetOption (setoption_line "LMRNoisyBase" value) s
  = Some (with_global s "LMRNoisyBase" (VFloat (stored_float (atoi value)))).
Proof. run_chain. Qed.

(** C9. After [setoption name LMRNoisyBase value 53] the [uci] listing
    gives 52 as the default of [LMRNoisyBase]: decoding 53 and encoding
    the stored value again does not give 53 back. *)
Theorem float_option_53_reads_back_52 (s : State) :
  exists s',
    SetOption (setoption_line "LMRNoisyBase" "53") s = Some s' /\
    float_global s' "LMRNoisyBase" = stored_float 53 /\
    default_of s' "LMRNoisyBase" Float100 = 52 /\
    In "option name LMRNoisyBase type spin default 52 min -100000 max 100000"
       (Info_lines s').
Proof.
  exists (with_global s "LMRNoisyBase" (VFloat (stored_float 53))).
  assert (float_global (with_global s "LMRNoisyBase" (VFloat (stored_float 53)))
            "LMRNoisyBase" = stored_float 53) as Hget.
  { unfold float_global, with_global. cbn [globals].
    rewrite lookup_insert_eq. reflexivity. }
  assert (default_of (with_global s "LMRNoisyBase" (VFloat (stored_float 53)))
            "LMRNoisyBase" Float100 = 52) as Hdef.
  { unfold default_of. rewrite Hget. vm_compute. reflexivity. }
  split; [apply SetOption_float|]. split; [exact Hget|]. split; [exact Hdef|].
  unfold Info_lines. apply in_or_app. right. apply in_or_app. left.
  apply in_map_iff. exists ("LMRNoisyBase", Float100).
  split; [|vm_compute; tauto].
  unfold tunable_line. cbn [fst snd]. rewrite Hdef. vm_compute. reflexivity.
Qed.

Lemma holds_from_spec (P : Z -> bool) (count : nat) :
  forall first, holds_from P first count = true ->
  forall x, first <= x < first + Z.of_nat count -> P x = true.
Proof.
  induction count as [|count IH]; intros first H x Hx.
  - lia.
  - simpl in H. apply andb_true_iff in H as [H0 H1].
    destruct (Z.eq_dec x first) as [->|Hne]; [exact H0|].
    apply (IH (first + 1) H1). lia.
Qed.

(** For a thousand steps either side of zero, the default read back is the
    value set or the next integer toward zero. *)
Lemma float_roundtrip_range (v : Z) :
  -1000 <= v <= 1000 ->
  printed_default (stored_float v) = v \/
  printed_default (stored_float v) = v - Z.sgn v.
Proof.
  intros Hv.
  assert (holds_from (fun v => let r := printed_default (stored_float v) in
                               (r =? v) || (r =? v - Z.sgn v))
                     (-1000) (Z.to_nat 2001) = true) as Hall
    by (vm_compute; reflexivity).
  pose proof (holds_from_spec _ _ _ Hall v) as H. cbv beta zeta in H.
  assert (-1000 <= v < -1000 + Z.of_nat (Z.to_nat 2001)) as Hr
    by (rewrite Z2Nat.id; lia).
  apply H, orb_true_iff in Hr as [E|E]; apply Z.eqb_eq in E; auto.
Qed.

(** *** Thinking output *)

(** [ceil_half x] is the least integer [c] with [x <= 2 * c]. *)
Lemma ceil_half_spec (x : Z) :
  x <= 2 * ceil_half x < x + 2.
Proof.
  unfold ceil_half.
  pose proof (Z.div_mod (- x) 2 ltac:(lia)) as Hdm.
  pose proof (Z.mod_pos_bound (- x) 2 ltac:(lia)) as Hb.
  lia.
Qed.

(** [(x + 1) / 2] of C, which truncates, is the ceiling of [x / 2] from
    [x = -1] upward. *)
Lemma quot_ceil_half (x : Z) : -1 <= x -> Z.quot (x + 1) 2 = ceil_half x.
Proof.
  intros Hx. pose proof (ceil_half_spec x) as Hc.
  rewrite Z.quot_div_nonneg by lia.
  pose proof (Z.div_mod (x + 1) 2 ltac:(lia)) as Hdm.
  pose proof (Z.mod_pos_bound (x + 1) 2 ltac:(lia)) as Hb.
  lia.
Qed.

Lemma MateScore_in_range (score : Z) :
  Z.abs score <= MATE + 1 -> MateScore score = signed_mate_distance score.
Proof.
  intros H. unfold MateScore, signed_mate_distance.
  rewrite quot_ceil_half by lia. reflexivity.
Qed.

(** Printing a list of lines changes [stdout] only, by appending them. *)
Lemma fold_left_puts (lines : list string) (s : State) :
  Limits (fold_left puts lines s) = Limits s /\
  globals (fold_left puts lines s) = globals s /\
  ABORT_SIGNAL (fold_left puts lines s) = ABORT_SIGNAL s /\
  calls (fold_left puts lines s) = calls s /\
  stdout (fold_left puts lines s) = stdout s ++ lines.
Proof.
  revert s. induction lines as [|l lines IH]; intros s; simpl.
  - rewrite app_nil_r. repeat split.
  - destruct (IH (puts s l)) as (H1 & H2 & H3 & H4 & H5).
    rewrite H1, H2, H3, H4, H5. simpl. rewrite <- app_assoc. repeat split.
Qed.

Lemma map_lookup {A B : Type} (f : A -> B) (l : list A) (k : nat) :
  List.map f l !! k = option_map f (l !! k).
Proof.
  revert k. induction l as [|x l IH]; intros [|k]; simpl; try reflexivity. apply IH.
Qed.

Lemma string_append_assoc (a b c : string) : (a +:+ b) +:+ c = a +:+ b +:+ c.
Proof. induction a as [|x a IH]; simpl; [reflexivity | rewrite IH; reflexivity]. Qed.

(** The text of a line, cut at the score. *)
Lemma format_info_line (thread : Thread) (alpha beta : Z) (pr : Probe)
    (i : Z) (rm : RootMove) :
  format_info (info_line thread alpha beta pr i rm)
  = info_front thread i +:+ " score " +:+ score_type (score rm) +:+ " "
      +:+ dec (printed_score (score rm) (Z.of_nat (length (pv rm))))
      +:+ score_bound (score rm) alpha beta +:+ info_back pr (pv rm).
Proof.
  unfold format_info, info_front, info_back.
  cbn [i_depth i_seldepth i_multipv i_type i_score i_bound i_time i_nodes i_nps
       i_tbhits i_hashfull i_pv info_line].
  rewrite !string_append_assoc. reflexivity.
Qed.

(** The loop reports a slot that it reaches. *)
Lemma PrintThinking_loop_reaches (thread : Thread) (alpha beta : Z) (pr : Probe)
    (slots : list RootMove) :
  forall (first : Z) (k : nat) (rm : RootMove),
    slots !! k = Some rm ->
    Forall (fun r => pv r <> []) (take (S k) slots) ->
    PrintThinking_loop thread alpha beta pr first slots !! k
    = Some (info_line thread alpha beta pr (first + Z.of_nat k) rm).
Proof.
  induction slots as [|rm0 slots IH]; intros first k rm Hk Hall.
  - destruct k; discriminate.
  - cbn [take] in Hall. inversion Hall as [|? ? Hrm0 Hrest]; subst.
    cbn [PrintThinking_loop].
    destruct (pv rm0) as [|m line] eqn:Epv; [contradiction|].
    cbn [length]. rewrite Nat2Z.inj_succ.
    destruct (Z.succ (Z.of_nat (length line)) =? 0) eqn:E;
      [apply Z.eqb_eq in E; lia|].
    destruct k as [|k].
    + cbn in Hk. injection Hk as <-. rewrite Z.add_0_r. reflexivity.
    + cbn in Hk. change ((?x :: ?l) !! S k) with (l !! k).
      rewrite (IH (first + 1) k rm Hk Hrest). do 2 f_equal. lia.
Qed.

(** What [PrintThinking] prints for a slot it reaches: line [k] of its
    output is the text of that slot. *)
Lemma PrintThinking_prints_slot (thread : Thread) (alpha beta : Z) (pr : Probe)
    (s : State) (k : nat) (rm : RootMove) :
  (elapsed pr + 1) mod 2 ^ 64 <> 0 ->
  rootMoves thread !! k = Some rm ->
  reported (Limits s) thread k ->
  exists s',
    PrintThinking thread alpha beta pr s = Some s' /\
    stdout s' !! (length (stdout s) + k)%nat
    = Some (format_info (info_line thread alpha beta pr (Z.of_nat k) rm)).
Proof.
  intros Hdiv Hk [Hlt Hall]. unfold PrintThinking.
  destruct ((elapsed pr + 1) mod 2 ^ 64 =? 0) eqn:E;
    [apply Z.eqb_eq in E; contradiction|].
  eexists. split; [reflexivity|].
  destruct (fold_left_puts
              (List.map format_info
                 (PrintThinking_lines (Limits s) thread alpha beta pr)) s)
    as (_ & _ & _ & _ & ->).
  rewrite lookup_app_r by lia.
  replace (length (stdout s) + k - length (stdout s))%nat with k by lia.
  rewrite map_lookup. unfold PrintThinking_lines.
  rewrite (PrintThinking_loop_reaches thread alpha beta pr _ 0 k rm).
  - reflexivity.
  - rewrite lookup_take_lt by lia. exact Hk.
  - rewrite take_take. replace (Nat.min (S k) (Z.to_nat (multiPV (Limits s))))
      with (S k) by lia. exact Hall.
Qed.

(** C4. A root move that [PrintThinking] reports and whose score has a
    magnitude of [MATE_IN_MAX] or more is printed as "score mate" followed
    by [MateScore] of the score; that number is the ceiling of
    [(MATE - |score|) / 2], positive for a positive score and negated
    otherwise, a distance in moves, for every score whose magnitude does
    not exceed [MATE + 1] (no score lies beyond [MATE], the mate on the
    board). *)
Theorem PrintThinking_mate_score
    (thread : Thread) (alpha beta : Z) (pr : Probe) (s : State)
    (k : nat) (rm : RootMove) :
  (elapsed pr + 1) mod 2 ^ 64 <> 0 ->
  rootMoves thread !! k = Some rm ->
  reported (Limits s) thread k ->
  MATE_IN_MAX <= Z.abs (score rm) ->
  (exists s',
     PrintThinking thread alpha beta pr s = Some s' /\
     stdout s' !! (length (stdout s) + k)%nat
     = Some (info_front thread (Z.of_nat k) +:+ " score mate "
               +:+ dec (MateScore (score rm))
               +:+ score_bound (score rm) alpha beta +:+ info_back pr (pv rm))) /\
  (Z.abs (score rm) <= MATE + 1 ->
   MateScore (score rm)
   = (if 0 <? score rm then ceil_half (MATE - Z.abs (score rm))
      else - ceil_half (MATE - Z.abs (score rm)))).
Proof.
  intros Hdiv Hk Hrep Hlo. split; [|apply MateScore_in_range].
  destruct (PrintThinking_prints_slot thread alpha beta pr s k rm Hdiv Hk Hrep)
    as (s' & Hs' & Hline).
  exists s'. split; [exact Hs'|]. rewrite Hline, format_info_line.
  unfold score_type, printed_score.
  apply Z.leb_le in Hlo. rewrite Hlo. reflexivity.
Qed.

(** The lines reported are the loop body at consecutive slots. *)
Lemma PrintThinking_loop_In (thread : Thread) (alpha beta : Z) (pr : Probe)
    (slots : list RootMove) (first : Z) (l : InfoLine) :
  In l (PrintThinking_loop thread alpha beta pr first slots) ->
  exists (k : nat) (rm : RootMove),
    slots !! k = Some rm /\ pv rm <> [] /\
    l = info_line thread alpha beta pr (first + Z.of_nat k) rm.
Proof.
  revert first. induction slots as [|rm0 slots IH]; intros first; simpl.
  - contradiction.
  - destruct (pv rm0) as [|m line] eqn:Epv; simpl; [contradiction|].
    intros [<- | Hin].
    + exists 0%nat, rm0. rewrite Z.add_0_r, Epv. repeat split. discriminate.
    + destruct (IH _ Hin) as (k & rm & Hk & Hpv & ->).
      exists (S k), rm. repeat split; [exact Hk | exact Hpv | f_equal; lia].
Qed.

Lemma score_bound_cases (score alpha beta : Z) :
  alpha < beta ->
  (beta <= score -> score_bound score alpha beta = " lowerbound") /\
  (score <= alpha -> score_bound score alpha beta = " upperbound") /\
  (alpha < score < beta -> score_bound score alpha beta = "").
Proof.
  intros Hw. unfold score_bound.
  destruct (Z.leb_spec beta score), (Z.leb_spec score alpha);
    repeat split; intros; first [reflexivity | lia].
Qed.

(** The test against [beta] comes first: a score at or above [beta] is a
    lower bound whatever [alpha] is. *)
Lemma score_bound_beta_first (score alpha beta : Z) :
  beta <= score -> score_bound score alpha beta = " lowerbound".
Proof. intros H. unfold score_bound. apply Z.leb_le in H. rewrite H. reflexivity. Qed.

(** C5. The line [PrintThinking] prints for a root move it reports
    carries, between the score and " time", the marker " lowerbound" if
    the score of that move is [beta] or more, " upperbound" if it is
    [alpha] or less (and below [beta], as every such score is when
    [alpha < beta]), and nothing if it lies strictly between the two. *)
Theorem PrintThinking_bound_marker
    (thread : Thread) (alpha beta : Z) (pr : Probe) (s : State)
    (k : nat) (rm : RootMove) :
  (elapsed pr + 1) mod 2 ^ 64 <> 0 ->
  rootMoves thread !! k = Some rm ->
  reported (Limits s) thread k ->
  exists (s' : State) (marker : string),
    PrintThinking thread alpha beta pr s = Some s' /\
    stdout s' !! (length (stdout s) + k)%nat
    = Some (info_front thread (Z.of_nat k) +:+ " score "
              +:+ score_type (score rm) +:+ " "
              +:+ dec (printed_score (score rm) (Z.of_nat (length (pv rm))))
              +:+ marker +:+ info_back pr (pv rm)) /\
    (beta <= score rm -> marker = " lowerbound") /\
    (score rm <= alpha -> score rm < beta -> marker = " upperbound") /\
    (alpha < score rm < beta -> marker = "").
Proof.
  intros Hdiv Hk Hrep.
  destruct (PrintThinking_prints_slot thread alpha beta pr s k rm Hdiv Hk Hrep)
    as (s' & Hs' & Hline).
  exists s', (score_bound (score rm) alpha beta).
  split; [exact Hs'|]. split; [rewrite Hline, format_info_line; reflexivity|].
  unfold score_bound.
  destruct (Z.leb_spec beta (score rm)), (Z.leb_spec (score rm) alpha);
    repeat split; intros; first [reflexivity | lia].
Qed.

(** The report ends at the first slot with an empty principal variation,
    whatever the slots behind it hold. *)
Lemma PrintThinking_loop_break (thread : Thread) (alpha beta : Z) (pr : Probe)
    (before after : list RootMove) (rm : RootMove) (first : Z) :
  pv rm = [] ->
  PrintThinking_loop thread alpha beta pr first (before ++ rm :: after)
  = PrintThinking_loop thread alpha beta pr first before.
Proof.
  intros Hrm. revert first. induction before as [|x before IH]; intros first; simpl.
  - rewrite Hrm. reflexivity.
  - destruct (Z.of_nat (length (pv x)) =? 0); [reflexivity|].
    rewrite IH. reflexivity.
Qed.

(** A slot with an empty principal variation gives no line. *)
Lemma PrintThinking_no_line_for_empty_pv
    (L : SearchLimits) (thread : Thread) (alpha beta : Z) (pr : Probe) (l : InfoLine) :
  In l (PrintThinking_lines L thread alpha beta pr) -> i_pv l <> [].
Proof.
  intros Hin. unfold PrintThinking_lines in Hin.
  apply PrintThinking_loop_In in Hin as (k & rm & _ & Hpv & ->). exact Hpv.
Qed.

(** C7. When some root-move slot has an empty principal variation, the
    lines [PrintThinking] reports are those of the slots in front of it:
    the loop ends there, so no slot behind it is reported, nonempty and
    within the first [multiPV] slots or not. *)
Theorem PrintThinking_stops_at_empty_pv
    (L : SearchLimits) (thread : Thread) (alpha beta : Z) (pr : Probe)
    (before after : list RootMove) (rm : RootMove) :
  rootMoves thread = before ++ rm :: after ->
  pv rm = [] ->
  PrintThinking_lines L thread alpha beta pr
  = PrintThinking_loop thread alpha beta pr 0 (take (Z.to_nat (multiPV L)) before)
  /\ forall l, In l (PrintThinking_lines L thread alpha beta pr) ->
               i_multipv l <= Z.of_nat (length before).
Proof.
  intros Hroot Hrm.
  assert (PrintThinking_lines L thread alpha beta pr
          = PrintThinking_loop thread alpha beta pr 0
              (take (Z.to_nat (multiPV L)) before)) as Heq.
  { unfold PrintThinking_lines. rewrite Hroot.
    destruct (le_lt_dec (Z.to_nat (multiPV L)) (length before)) as [Hle|Hlt].
    - rewrite take_app_le by exact Hle. reflexivity.
    - rewrite take_app_ge by lia.
      rewrite (take_ge before) by lia.
      destruct (Z.to_nat (multiPV L) - length before)%nat as [|n] eqn:En; [lia|].
      cbn [take]. apply PrintThinking_loop_break. exact Hrm. }
  split; [exact Heq|].
  intros l Hin. rewrite Heq in Hin.
  apply PrintThinking_loop_In in Hin as (k & x & Hk & _ & ->).
  apply lookup_take_Some in Hk as [Hk _].
  apply lookup_lt_Some in Hk. cbn [i_multipv info_line]. lia.
Qed.

(** ** Part II, continued: further properties of the adapter *)

(** Membership in a list that is written out. *)
Ltac in_list := simpl; solve [ repeat first [ left; reflexivity | right ] ].

(** *** The command hash, in closed form *)

(** Exclusive or is associative and commutative: equations between nested
    [Z.lxor] are decided bit by bit. *)
Ltac xor_bits :=
  apply Z.bits_inj'; intros ? _; rewrite ?Z.lxor_spec, ?Z.bits_0;
  repeat match goal with
         | |- context [Z.testbit ?a ?n] => destruct (Z.testbit a n)
         end;
  reflexivity.

Lemma token_chars_Forall (tok : string) :
  Forall (fun c => token_char c = true) (chars tok) ->
  forall (hash len : Z),
    HashInput_loop tok hash len
    = Z.lxor hash (Z.lxor (xor_codes (chars tok)) (xor_range len (length (chars tok)))).
Proof.
  induction tok as [|c tok IH]; intros Htok hash len; simpl.
  - xor_bits.
  - inversion Htok as [|? ? Hc Hrest]; subst.
    unfold token_char in Hc. apply negb_true_iff in Hc. rewrite Hc.
    rewrite (IH Hrest). xor_bits.
Qed.

Lemma xor_codes_Permutation (l1 l2 : list ascii) :
  Permutation l1 l2 -> xor_codes l1 = xor_codes l2.
Proof.
  induction 1 as [|c l1 l2 _ IH|c d l|l1 l2 l3 _ IH1 _ IH2]; simpl.
  - reflexivity.
  - rewrite IH. reflexivity.
  - xor_bits.
  - congruence.
Qed.

(** X1. The hash does not see the order of the characters of the token: the
    characters enter through their exclusive or, the positions through the
    exclusive or of [1 .. length].  Two command lines whose first words are
    rearrangements of each other reach the same [case] of the dispatcher,
    whatever their arguments. *)
Theorem HashInput_rearranged (tok1 tok2 args1 args2 : string) :
  Forall (fun c => token_char c = true) (chars tok1) ->
  Permutation (chars tok1) (chars tok2) ->
  HashInput tok1
    = Z.lxor (xor_codes (chars tok1)) (xor_range 1 (length (chars tok1))) /\
  HashInput tok1 = HashInput tok2 /\
  HashInput (tok1 +:+ String " " args1) = HashInput (tok2 +:+ String " " args2).
Proof.
  intros Htok Hperm.
  assert (Forall (fun c => token_char c = true) (chars tok2)) as Htok2
    by (rewrite <- Hperm; exact Htok).
  assert (HashInput tok1 = HashInput tok2) as Heq.
  { unfold HashInput. rewrite !token_chars_Forall by assumption.
    rewrite (xor_codes_Permutation _ _ Hperm), (Permutation_length Hperm).
    reflexivity. }
  split; [|split; [exact Heq|]].
  - unfold HashInput. rewrite token_chars_Forall by exact Htok. xor_bits.
  - rewrite !HashInput_token. exact Heq.
Qed.

(** A word of fewer than 128 seven-bit characters hashes into [0 .. 127]. *)
Lemma lxor_below (n a b : Z) :
  0 <= n -> 0 <= a < 2 ^ n -> 0 <= b < 2 ^ n -> 0 <= Z.lxor a b < 2 ^ n.
Proof.
  intros Hn Ha Hb. split; [apply Z.lxor_nonneg; lia|].
  destruct (Z.eq_dec n 0) as [->|Hn0].
  - assert (a = 0) as -> by (change (2 ^ 0) with 1 in Ha; lia).
    assert (b = 0) as -> by (change (2 ^ 0) with 1 in Hb; lia).
    reflexivity.
  - assert (forall x, 0 <= x < 2 ^ n -> Z.log2 x < n) as Hlog.
    { intros x Hx. destruct (Z.eq_dec x 0) as [->|Hx0]; [simpl; lia|].
      apply Z.log2_lt_pow2; lia. }
    destruct (Z.eq_dec (Z.lxor a b) 0) as [->|Hnz]; [lia|].
    assert (0 <= Z.lxor a b) as Hge by (apply Z.lxor_nonneg; lia).
    apply Z.log2_lt_pow2; [lia|].
    pose proof (Z.log2_lxor a b ltac:(lia) ltac:(lia)) as Hl.
    pose proof (Hlog a Ha). pose proof (Hlog b Hb). lia.
Qed.

Lemma HashInput_loop_below (tok : string) :
  forall hash len,
    Forall (fun c => 0 <= char_code c) (chars tok) ->
    0 <= hash < 128 -> 0 <= len -> len + Z.of_nat (length (chars tok)) <= 128 ->
    0 <= HashInput_loop tok hash len < 128.
Proof.
  induction tok as [|c tok IH]; intros hash len Hc Hh Hl Hlen; simpl.
  - exact Hh.
  - destruct (Ascii.eqb c "000" || Ascii.eqb c " "); [exact Hh|].
    inversion Hc as [|? ? Hc0 Hrest]; subst.
    simpl in Hlen.
    apply IH; [exact Hrest | | lia | lia].
    assert (char_code c < 128) as Hlt.
    { unfold char_code in Hc0 |- *. destruct (Z.of_N (N_of_ascii c) <? 128) eqn:E.
      - apply Z.ltb_lt in E. exact E.
      - pose proof (N_ascii_bounded c). lia. }
    change 128 with (2 ^ 7).
    apply lxor_below; [lia | exact Hh |].
    apply lxor_below; change (2 ^ 7) with 128; lia.
Qed.

(** X2. For a first word of fewer than 128 seven-bit characters the value the
    dispatcher switches on lies in [0 .. 127], with or without arguments
    behind the word. *)
Theorem HashInput_below_128 (tok args : string) :
  Forall (fun c => 0 <= char_code c) (chars tok) ->
  (length (chars tok) < 128)%nat ->
  0 <= HashInput tok < 128 /\
  0 <= HashInput (tok +:+ String " " args) < 128.
Proof.
  intros Hc Hlen. rewrite HashInput_token.
  assert (0 <= HashInput tok < 128) as H
    by (unfold HashInput; apply HashInput_loop_below; [exact Hc | lia | lia | lia]).
  split; exact H.
Qed.

(** *** Decimal text: what [printf] writes, [atoi] reads back *)

Lemma atoi_digits_uint_acc (d : Decimal.uint) (rest : string) :
  atoi_digits rest 0 = 0 ->
  (forall acc, atoi_digits rest acc = acc) ->
  forall acc : positive,
    atoi_digits (NilEmpty.string_of_uint d +:+ rest) (Zpos acc)
    = Zpos (Pos.of_uint_acc d acc).
Proof.
  intros _ Hrest. induction d; intros acc; simpl;
    first [ apply Hrest | rewrite <- IHd; f_equal; lia ].
Qed.

Lemma atoi_digits_uint (d : Decimal.uint) (rest : string) :
  (forall acc, atoi_digits rest acc = acc) ->
  atoi_digits (NilEmpty.string_of_uint d +:+ rest) 0 = Z.of_N (Pos.of_uint d).
Proof.
  intros Hrest. induction d; simpl;
    first [ apply Hrest
          | exact IHd
          | apply (atoi_digits_uint_acc d rest (Hrest 0) Hrest) ].
Qed.

Lemma atoi_dec_then (n : Z) (rest : string) :
  ends_number rest -> atoi (dec n +:+ rest) = n.
Proof.
  intros Hrest. unfold dec, atoi.
  destruct n as [|p|p]; simpl Z.to_int.
  - simpl. apply Hrest.
  - pose proof (DecimalPos.Unsigned.to_uint_nonnil p) as Hnil.
    pose proof (DecimalPos.Unsigned.of_to p) as Hof.
    pose proof (atoi_digits_uint (Pos.to_uint p) rest Hrest) as Hd.
    rewrite Hof in Hd. simpl in Hd.
    unfold NilZero.string_of_int, NilZero.string_of_uint.
    destruct (Pos.to_uint p); try contradiction; simpl in Hd |- *; exact Hd.
  - pose proof (DecimalPos.Unsigned.to_uint_nonnil p) as Hnil.
    pose proof (DecimalPos.Unsigned.of_to p) as Hof.
    pose proof (atoi_digits_uint (Pos.to_uint p) rest Hrest) as Hd.
    rewrite Hof in Hd. simpl in Hd.
    unfold NilZero.string_of_int, NilZero.string_of_uint.
    destruct (Pos.to_uint p); try contradiction; simpl in Hd |- *; rewrite Hd; reflexivity.
Qed.

Lemma append_empty (s : string) : s +:+ "" = s.
Proof. induction s as [|c s IH]; simpl; congruence. Qed.

Lemma atoi_dec (n : Z) : atoi (dec n) = n.
Proof.
  rewrite <- (append_empty (dec n)).
  apply atoi_dec_then. intros acc. reflexivity.
Qed.

Lemma atoi_space (s : string) : atoi (String " " s) = atoi s.
Proof. reflexivity. Qed.

(** *** go: numbers, absent keywords, searchmoves *)

Lemma SetLimit_absent (str token : string) (limit : Z) :
  ~ occurs_in token str -> SetLimit str token limit = limit.
Proof.
  intros Hno. unfold SetLimit.
  destruct (strstr str token) as [p|] eqn:E; [|reflexivity].
  exfalso. apply Hno, strstr_occurs. rewrite E. reflexivity.
Qed.

Lemma strstr_absent (str token : string) :
  ~ occurs_in token str -> strstr str token = None.
Proof.
  intros Hno. destruct (strstr str token) as [p|] eqn:E; [|reflexivity].
  exfalso. apply Hno, strstr_occurs. rewrite E. reflexivity.
Qed.

(** X3. A number of type [int] written in decimal after [depth] or
    [movetime] is the number [ParseTimeControl] stores, negative numbers
    included; only the depth 0 is replaced, by 100, so that the depth it
    leaves is never 0. *)
Theorem ParseTimeControl_reads_decimal
    (n : Z) (str : string) (pos : Position) (now : Z) (L : SearchLimits) :
  is_int n ->
  depth (ParseTimeControl ("go depth " +:+ dec n) pos now L)
    = (if n =? 0 then 100 else n) /\
  movetime (ParseTimeControl ("go movetime " +:+ dec n) pos now L) = n /\
  depth (ParseTimeControl str pos now L) <> 0.
Proof.
  intros _. rewrite !ParseTimeControl_fields. cbn [depth movetime].
  assert (SetLimit ("go depth " +:+ dec n) "depth" 0 = n) as Hd.
  { change (atoi (String " " (dec n)) = n). rewrite atoi_space. apply atoi_dec. }
  assert (SetLimit ("go movetime " +:+ dec n) "movetime" 0 = n) as Hm.
  { change (atoi (String " " (dec n)) = n). rewrite atoi_space. apply atoi_dec. }
  rewrite Hd, Hm. repeat split.
  destruct (SetLimit str "depth" 0 =? 0) eqn:E; [lia|].
  apply Z.eqb_neq in E. exact E.
Qed.

(** X4. A line with none of the keywords gives the limits of a plain "go":
    everything zero or empty, depth 100, no time limit. *)
Theorem ParseTimeControl_no_keyword
    (str : string) (pos : Position) (now : Z) (L : SearchLimits) :
  (forall k, In k go_keywords -> ~ occurs_in k str) ->
  ParseTimeControl str pos now L
  = {| start := now; time := 0; inc := 0; movestogo := 0; movetime := 0;
       depth := 100; mate := 0; timelimit := false; infinite := false;
       searchmoves := []; multiPV := multiPV L |}.
Proof.
  intros Hno. rewrite ParseTimeControl_fields.
  assert (forall k, In k go_keywords -> forall l, SetLimit str k l = l) as Hlim
    by (intros k Hk l; apply SetLimit_absent, Hno, Hk).
  assert (forall k, In k go_keywords -> strstr str k = None) as Hstr
    by (intros k Hk; apply strstr_absent, Hno, Hk).
  unfold side_token.
  rewrite (Hstr "infinite"), (Hstr "searchmoves ") by in_list.
  rewrite (Hlim "movestogo"), (Hlim "movetime"), (Hlim "depth"), (Hlim "mate")
    by in_list.
  destruct (sideToMove pos);
    [ rewrite (Hlim "btime"), (Hlim "binc") by in_list
    | rewrite (Hlim "wtime"), (Hlim "winc") by in_list ];
    reflexivity.
Qed.

(** X5. Only the clock of the side to move counts: without its keyword and
    without [movetime], the search has no time limit, whatever the line
    says about the other clock. *)
Theorem ParseTimeControl_other_clock
    (str : string) (pos : Position) (now : Z) (L : SearchLimits) :
  ~ occurs_in (side_token pos "wtime" "btime") str ->
  ~ occurs_in "movetime" str ->
  time (ParseTimeControl str pos now L) = 0 /\
  timelimit (ParseTimeControl str pos now L) = false.
Proof.
  intros Hclock Hmove. rewrite ParseTimeControl_fields. cbn [time timelimit].
  rewrite (SetLimit_absent _ _ _ Hclock), (SetLimit_absent _ _ _ Hmove).
  split; reflexivity.
Qed.

(** [strtok] gives back the words that were joined by single spaces. *)
Lemma strtok_from_word (w rest cur : string) :
  space_free w = true ->
  strtok_from (w +:+ rest) cur = strtok_from rest (cur +:+ w).
Proof.
  revert cur. induction w as [|c w IH]; intros cur Hw; simpl.
  - rewrite append_empty. reflexivity.
  - simpl in Hw. apply andb_true_iff in Hw as [Hc Hw].
    apply negb_true_iff in Hc. rewrite Hc, (IH _ Hw).
    f_equal. clear. induction cur as [|d cur IHc]; simpl; congruence.
Qed.

Lemma strtok_from_space (c : ascii) (w rest : string) :
  strtok_from (String " " rest) (String c w) = String c w :: strtok_from rest "".
Proof. reflexivity. Qed.

Lemma strtok_all_join (ws : list string) :
  Forall (fun w => is_word w = true) ws -> strtok_all (join_words ws) = ws.
Proof.
  unfold strtok_all. induction ws as [|w ws IH]; intros Hws.
  - reflexivity.
  - inversion Hws as [|? ? Hw Hrest]; subst.
    unfold is_word in Hw. apply andb_true_iff in Hw as [Hne Hsf].
    destruct w as [|c w]; [discriminate|].
    destruct ws as [|w' ws].
    + change (join_words [String c w]) with (String c w).
      rewrite <- (append_empty (String c w)) at 1.
      rewrite (strtok_from_word (String c w) "" "" Hsf). reflexivity.
    + change (join_words (String c w :: w' :: ws))
        with (String c w +:+ String " " (join_words (w' :: ws))).
      rewrite (strtok_from_word (String c w) _ "" Hsf).
      change ("" +:+ String c w) with (String c w).
      rewrite strtok_from_space, (IH Hrest). reflexivity.
Qed.

(** The words of a well-formed searchmoves list are the tokens the loop
    sees. *)
Lemma searchmoves_tokens_join (ws : list string) :
  Forall (fun w => is_word w = true) ws ->
  searchmoves_tokens ("go searchmoves " +:+ join_words ws) = ws.
Proof.
  intros Hws. unfold searchmoves_tokens.
  change (strstr ("go searchmoves " +:+ join_words ws) "searchmoves ")
    with (Some ("searchmoves " +:+ join_words ws)).
  cbv beta iota.
  assert (strtok_all ("searchmoves " +:+ join_words ws) = "searchmoves" :: ws) as ->.
  { unfold strtok_all.
    change ("searchmoves " +:+ join_words ws)
      with ("searchmoves" +:+ String " " (join_words ws)).
    rewrite (strtok_from_word "searchmoves" _ "" eq_refl).
    change ("" +:+ "searchmoves") with "searchmoves".
    rewrite strtok_from_space. f_equal. apply strtok_all_join, Hws. }
  reflexivity.
Qed.

(** X6. The words behind [searchmoves], as long as they are no more than
    the array has entries, are handed to [ParseMove] one by one and
    stored in the order they stand in, every one inside the array. *)
Theorem ParseTimeControl_searchmoves
    (ws : list string) (pos : Position) (now : Z) (L : SearchLimits) :
  Forall (fun w => is_word w = true) ws ->
  (length ws <= searchmoves_entries)%nat ->
  searchmoves_fit ("go searchmoves " +:+ join_words ws) /\
  searchmoves (ParseTimeControl ("go searchmoves " +:+ join_words ws) pos now L)
  = List.map (fun w => ParseMove w pos) ws.
Proof.
  intros Hws Hlen. split.
  - unfold searchmoves_fit. rewrite (searchmoves_tokens_join ws Hws). exact Hlen.
  - rewrite ParseTimeControl_searchmoves_tokens, (searchmoves_tokens_join ws Hws).
    reflexivity.
Qed.

(** *** setoption and uci together *)

(** X8. One [setoption] line has one effect: a call into the engine, or a new
    [multiPV], or a new value of one global, or the line for an unknown
    name.  In particular it never touches [ABORT_SIGNAL] or another limit,
    and it prints nothing when the name is known. *)
Theorem SetOption_one_effect (str : string) (s s' : State) :
  SetOption str s = Some s' ->
  (exists c, s' = call s c) \/
  (exists n, s' = with_Limits s (set_multiPV (Limits s) n)) \/
  (exists var v, s' = with_global s var v) \/
  s' = puts s "info string No such option.".
Proof.
  unfold SetOption. destruct (optionName_of str) as [optionName|]; [|discriminate].
  destruct (chain_lookup optionName) as [[name a]|].
  - destruct (optionValue_of str) as [optionValue|]; [|discriminate].
    intros [= <-]. destruct a; simpl; eauto 6.
  - intros [= <-]. auto.
Qed.

(** A tunable outside [misrouted] reaches the statement of its own name. *)
Lemma SetOption_routed (e : string * Encoding) (value : string) (s : State) :
  In e Info_tunables -> ~ In (fst e) misrouted ->
  SetOption (setoption_line (fst e) value) s
  = Some (run_Action (own_Action e) value s).
Proof.
  intros Hin Hmis. unfold Info_tunables in Hin. simpl in Hin.
  repeat (destruct Hin as [<- | Hin];
          [ first [ run_chain | exfalso; apply Hmis; in_list ] | ]).
  contradiction.
Qed.

Lemma default_of_stored (e : string * Encoding) (value : string) (s : State) :
  default_of (run_Action (own_Action e) value s) (fst e) (snd e)
  = shown_default (snd e) (atoi value).
Proof.
  destruct e as [name k]. destruct k; simpl;
    unfold int_global, float_global, with_global; cbn [globals];
    rewrite lookup_insert_eq; reflexivity.
Qed.

Lemma default_of_other (a : Action) (value : string) (s : State)
    (name : string) (k : Encoding) :
  writes a <> Some name ->
  default_of (run_Action a value s) name k = default_of s name k.
Proof.
  intros Hw. pose proof (run_Action_frame a value s name Hw) as Hf.
  destruct k; simpl; unfold int_global, float_global; rewrite Hf; reflexivity.
Qed.

Lemma tunable_line_listed (s : State) (e : string * Encoding) :
  In e Info_tunables -> In (tunable_line s e) (Info_lines s).
Proof.
  intros Hin. unfold Info_lines. apply in_or_app. right. apply in_or_app. left.
  apply in_map. exact Hin.
Qed.

(** X12. After [setoption] on a tunable that is routed to its own global,
    with a value that is an [int], [uci] lists that tunable with the
    value just given, as an [int] tunable holds it and as a [float]
    tunable reads back, and lists every other tunable as before. *)
Theorem setoption_then_uci (e : string * Encoding) (value : string) (s : State) :
  In e Info_tunables -> ~ In (fst e) misrouted -> is_int (atoi value) ->
  exists s',
    SetOption (setoption_line (fst e) value) s = Some s' /\
    In (spin_line (fst e) (shown_default (snd e) (atoi value)) (-100000) 100000)
       (Info_lines s') /\
    forall e', fst e' <> fst e -> tunable_line s' e' = tunable_line s e'.
Proof.
  intros Hin Hmis _. exists (run_Action (own_Action e) value s).
  split; [apply SetOption_routed; assumption|]. split.
  - rewrite <- (default_of_stored e value s). apply (tunable_line_listed _ e Hin).
  - intros e' Hne. unfold tunable_line. f_equal.
    apply default_of_other. destruct e as [name k].
    cbn [fst] in Hne. destruct k; cbn [own_Action fst snd writes]; congruence.
Qed.

Lemma In_fst_unique {A B : Type} (l : list (A * B)) (x y : A * B) :
  NoDup (List.map fst l) -> In x l -> In y l -> fst x = fst y -> x = y.
Proof.
  induction l as [|z l IH]; simpl; intros Hnd Hx Hy Heq; [contradiction|].
  apply NoDup_cons in Hnd as [Hz Hnd].
  destruct Hx as [<-|Hx], Hy as [<-|Hy].
  - reflexivity.
  - exfalso. apply Hz. rewrite Heq. apply list_elem_of_In, in_map, Hy.
  - exfalso. apply Hz. rewrite <- Heq. apply list_elem_of_In, in_map, Hx.
  - apply IH; assumption.
Qed.

Lemma Info_tunables_NoDup : NoDup (List.map fst Info_tunables).
Proof. apply (bool_decide_eq_true _). vm_compute. reflexivity. Qed.

(** X13. The default [uci] lists for an [int] tunable, given back to
    [setoption], changes nothing that [uci] shows: printing in decimal and
    reading with [atoi] are inverse to each other. *)
Theorem uci_default_fed_back (e : string * Encoding) (s : State) :
  In e Info_tunables -> snd e = Int -> ~ In (fst e) misrouted ->
  exists s',
    SetOption (setoption_line (fst e) (dec (default_of s (fst e) Int))) s = Some s' /\
    globals s' !! fst e = Some (VInt (default_of s (fst e) Int)) /\
    Info_lines s' = Info_lines s.
Proof.
  intros Hin Hint Hmis.
  set (text := dec (default_of s (fst e) Int)).
  exists (run_Action (own_Action e) text s).
  split; [apply SetOption_routed; assumption|].
  assert (atoi text = default_of s (fst e) Int) as Hval by apply atoi_dec.
  split.
  - destruct e as [name k]. simpl in Hint. subst k.
    unfold own_Action. cbn [fst snd run_Action with_global globals].
    rewrite lookup_insert_eq. unfold IntValue. rewrite Hval. reflexivity.
  - unfold Info_lines. f_equal. f_equal. apply map_ext_in. intros e' Hin'.
    unfold tunable_line. f_equal.
    destruct (string_dec (fst e') (fst e)) as [Heq|Hne].
    + assert (e' = e) as -> by (apply (In_fst_unique Info_tunables);
                                 auto using Info_tunables_NoDup).
      rewrite default_of_stored, Hint. exact Hval.
    + apply default_of_other. destruct e as [name k].
    cbn [fst] in Hne. destruct k; cbn [own_Action fst snd writes]; congruence.
Qed.

Lemma starts_with_append (p x y : string) :
  starts_with (p +:+ x) (p +:+ y) = starts_with x y.
Proof.
  induction p as [|c p IH]; simpl; [reflexivity|].
  rewrite Ascii.eqb_refl. exact IH.
Qed.

Lemma tunable_line_names (s : State) (e : string * Encoding) :
  starts_with (tunable_line s e) ("option name " +:+ fst e +:+ " type ") = true.
Proof.
  unfold tunable_line, spin_line.
  rewrite (starts_with_append "option name ").
  change (" type spin default " +:+ ?x) with (" type " +:+ "spin default " +:+ x).
  rewrite (starts_with_append (fst e)).
  reflexivity.
Qed.

(** X15. Every option name [SetOption] tests is listed by [uci]; of the
    tunables [uci] lists, [MPGoodDepth] is the only one whose name
    [SetOption] never tests. *)
Theorem tested_names_are_listed (s : State) :
  (forall name, In name (List.map fst SetOption_chain) ->
     exists line, In line (Info_lines s) /\
       starts_with line ("option name " +:+ name +:+ " type ") = true) /\
  (forall e, In e Info_tunables -> fst e <> "MPGoodDepth" ->
     In (fst e) (List.map fst SetOption_chain)) /\
  ~ In "MPGoodDepth" (List.map fst SetOption_chain).
Proof.
  split; [|split].
  - intros name Hin.
    assert (In name fixed_options \/ exists k, In (name, k) Info_tunables) as Hcase.
    { assert (forallb (fun n => existsb (String.eqb n) fixed_options
                                || existsb (fun e => String.eqb n (fst e)) Info_tunables)
                      (List.map fst SetOption_chain) = true) as Hall
        by (vm_compute; reflexivity).
      rewrite forallb_forall in Hall. specialize (Hall _ Hin).
      apply orb_true_iff in Hall as [H|H]; apply existsb_exists in H as (x & Hx & Heq);
        apply String.eqb_eq in Heq; subst name.
      - left. exact Hx.
      - right. exists (snd x). destruct x. exact Hx. }
    destruct Hcase as [Hfix|[k Htun]].
    + assert (existsb (fun line => starts_with line ("option name " +:+ name +:+ " type "))
                      (firstn 10 (Info_lines s)) = true) as Hex.
      { unfold fixed_options in Hfix. simpl in Hfix.
        repeat (destruct Hfix as [<-|Hfix]; [reflexivity|]). contradiction. }
      apply existsb_exists in Hex as (line & Hline & Hstart).
      exists line. split; [|exact Hstart].
      unfold Info_lines. apply in_or_app. left. exact Hline.
    + exists (tunable_line s (name, k)). split.
      * apply tunable_line_listed, Htun.
      * apply (tunable_line_names s (name, k)).
  - intros e Hin Hne.
    assert (forallb (fun e => String.eqb (fst e) "MPGoodDepth"
                              || existsb (String.eqb (fst e)) (List.map fst SetOption_chain))
                    Info_tunables = true) as Hall
      by (vm_compute; reflexivity).
    rewrite forallb_forall in Hall. specialize (Hall _ Hin).
    apply orb_true_iff in Hall as [H|H].
    + apply String.eqb_eq in H. contradiction.
    + apply existsb_exists in H as (x & Hx & Heq).
      apply String.eqb_eq in Heq. rewrite Heq. exact Hx.
  - intros Hin.
    assert (existsb (String.eqb "MPGoodDepth") (List.map fst SetOption_chain) = false)
      as Hno by (vm_compute; reflexivity).
    assert (existsb (String.eqb "MPGoodDepth") (List.map fst SetOption_chain) = true)
      as Hyes by (apply existsb_exists; exists "MPGoodDepth"; split;
                  [exact Hin | apply String.eqb_refl]).
    congruence.
Qed.

(** X16. [uci] only prints: 88 lines, the last one "uciok", and nothing else
    of the state changes.  What it prints depends on the tunables alone:
    two states that agree on them get the same listing, so that a
    [MultiPV], a hash size or a boolean switch that was set does not
    show. *)
Theorem Info_only_prints (s : State) :
  stdout (Info s) = stdout s ++ Info_lines s /\
  length (Info_lines s) = 88%nat /\
  List.last (Info_lines s) "" = "uciok" /\
  Limits (Info s) = Limits s /\ globals (Info s) = globals s /\
  ABORT_SIGNAL (Info s) = ABORT_SIGNAL s /\ calls (Info s) = calls s /\
  forall s2,
    (forall e, In e Info_tunables -> globals s2 !! fst e = globals s !! fst e) ->
    Info_lines s2 = Info_lines s.
Proof.
  unfold Info. destruct (fold_left_puts (Info_lines s) s) as (H1 & H2 & H3 & H4 & H5).
  split; [exact H5|]. split; [reflexivity|]. split; [reflexivity|].
  split; [exact H1|]. split; [exact H2|]. split; [exact H3|]. split; [exact H4|].
  intros s2 Hagree. unfold Info_lines. f_equal. f_equal.
  apply map_ext_in. intros e He. unfold tunable_line. f_equal.
  destruct e as [name k]. specialize (Hagree _ He). cbn [fst snd] in Hagree |- *.
  destruct k; simpl; unfold int_global, float_global; rewrite Hagree; reflexivity.
Qed.

(** X17. [setoption] stores a [MultiPV] below the advertised minimum of 1 as it
    is, and with such a value [PrintThinking] reports nothing at all: when
    it returns, the state is as it was. *)
Theorem MultiPV_below_one_silences (value : string) (s : State) :
  is_int (atoi value) -> atoi value <= 0 ->
  exists s',
    SetOption (setoption_line "MultiPV" value) s = Some s' /\
    multiPV (Limits s') = atoi value /\
    forall (thread : Thread) (alpha beta : Z) (pr : Probe),
      PrintThinking_lines (Limits s') thread alpha beta pr = [] /\
      ((elapsed pr + 1) mod 2 ^ 64 <> 0 ->
       PrintThinking thread alpha beta pr s' = Some s').
Proof.
  intros _ Hv. exists (with_Limits s (set_multiPV (Limits s) (atoi value))).
  split; [apply SetOption_MultiPV|]. split; [reflexivity|].
  intros thread alpha beta pr.
  assert (PrintThinking_lines
            (Limits (with_Limits s (set_multiPV (Limits s) (atoi value))))
            thread alpha beta pr = []) as Hnil.
  { unfold PrintThinking_lines. cbn [Limits with_Limits multiPV set_multiPV].
    rewrite Z2Nat.nonpos by exact Hv. reflexivity. }
  split; [exact Hnil|]. intros Hdiv. unfold PrintThinking.
  destruct ((elapsed pr + 1) mod 2 ^ 64 =? 0) eqn:E;
    [apply Z.eqb_eq in E; contradiction|].
  rewrite Hnil. reflexivity.
Qed.

(** *** Thinking output: which slots, how many lines *)




(** X19. [PrintThinking] has a result unless the divisor [elapsed + 1] of
    its [nps] is 0, and then it has only appended its lines to the
    output, at most [multiPV] of them and none when [multiPV] is not
    positive, and changed nothing else. *)
Theorem PrintThinking_only_prints
    (thread : Thread) (alpha beta : Z) (pr : Probe) (s : State) :
  ((elapsed pr + 1) mod 2 ^ 64 = 0 ->
   PrintThinking thread alpha beta pr s = None) /\
  ((elapsed pr + 1) mod 2 ^ 64 <> 0 ->
   exists s' lines,
     PrintThinking thread alpha beta pr s = Some s' /\
     stdout s' = stdout s ++ lines /\
     Z.of_nat (length lines) <= Z.max 0 (multiPV (Limits s)) /\
     (length lines <= length (rootMoves thread))%nat /\
     Limits s' = Limits s /\ globals s' = globals s /\
     ABORT_SIGNAL s' = ABORT_SIGNAL s /\ calls s' = calls s).
Proof.
  unfold PrintThinking. split; intros Hdiv.
  { apply Z.eqb_eq in Hdiv. rewrite Hdiv. reflexivity. }
  apply Z.eqb_neq in Hdiv. rewrite Hdiv.
  set (lines := PrintThinking_lines (Limits s) thread alpha beta pr).
  destruct (fold_left_puts (List.map format_info lines) s) as (H1 & H2 & H3 & H4 & H5).
  eexists. exists (List.map format_info lines). split; [reflexivity|].
  assert (length lines <= length (take (Z.to_nat (multiPV (Limits s)))
                                       (rootMoves thread)))%nat as Hlen.
  { unfold lines, PrintThinking_lines.
    generalize (take (Z.to_nat (multiPV (Limits s))) (rootMoves thread)).
    generalize 0. intros first slots. revert first.
    induction slots as [|rm slots IH]; intros first; simpl; [lia|].
    destruct (Z.of_nat (length (pv rm)) =? 0); simpl; [lia|].
    specialize (IH (first + 1)). lia. }
  rewrite length_take in Hlen. rewrite length_map.
  repeat split; try assumption; lia.
Qed.

(** *** Thinking output: seldepth and nps *)

(** X20. [seldepth] is the number of the last history entry below 128 with a
    nonzero key, counted from 1, and 0 when there is none. *)
Theorem seldepth_loop_spec (pos : Position) (top : nat) :
  let found := seldepth_loop pos top in
  (found <= top)%nat /\
  (forall below, found = S below -> history_key pos (Z.of_nat below) <> 0) /\
  (forall j, (found <= j < top)%nat -> history_key pos (Z.of_nat j) = 0).
Proof.
  induction top as [|top IH]; simpl.
  - repeat split; [lia | discriminate | lia].
  - destruct (history_key pos (Z.of_nat top) =? 0) eqn:E.
    + apply Z.eqb_eq in E. destruct IH as (H1 & H2 & H3).
      repeat split; [lia | exact H2 |].
      intros j Hj. destruct (Nat.eq_dec j top) as [->|Hne]; [exact E|].
      apply H3. lia.
    + apply Z.eqb_neq in E.
      repeat split; [lia | intros below [= <-]; exact E | lia].
Qed.

(** X21. The nodes per second as printed: with [elapsed >= 0] the divisor
    [elapsed + 1] is never 0, and the value is the quotient as long as
    that stays below [2^31]; from [2^31] on the conversion to [int] makes
    it negative. *)
Theorem nps_of_spec (nodes elapsed : Z) :
  0 <= nodes -> 1000 * nodes < 2 ^ 64 -> 0 <= elapsed -> elapsed + 1 < 2 ^ 64 ->
  let q := 1000 * nodes / (elapsed + 1) in
  (q < 2 ^ 31 -> nps_of nodes elapsed = q /\ 0 <= nps_of nodes elapsed) /\
  (2 ^ 31 <= q < 2 ^ 32 -> nps_of nodes elapsed = q - 2 ^ 32 /\ nps_of nodes elapsed < 0).
Proof.
  intros Hn Hn64 He He64 q.
  assert (0 <= q) as Hq by (apply Z.div_pos; lia).
  unfold nps_of, to_int.
  rewrite (Z.mod_small (1000 * nodes)), (Z.mod_small (elapsed + 1)) by lia.
  fold q. split; intros Hr.
  - rewrite (Z.mod_small (q + 2 ^ 31)) by lia. lia.
  - replace (q + 2 ^ 31) with ((q - 2 ^ 31) + 1 * 2 ^ 32) by lia.
    rewrite Z.mod_add by lia. rewrite Z.mod_small by lia. lia.
Qed.

(** *** go: what a search command leaves alone *)




(** *** setoption: the globals within reach *)

Lemma chain_lookup_reachable (optionName : string) :
  chain_lookup optionName
  = List.find (fun e => OptionNameIs optionName (fst e)) (removelast SetOption_chain).
Proof.
  unfold chain_lookup.
  rewrite (app_removelast_last ("", StoreMultiPV) (l := SetOption_chain)) at 1
    by discriminate.
  rewrite find_app_first.
  destruct (List.find _ (removelast SetOption_chain)) as [e|] eqn:E; [reflexivity|].
  assert (In ("MPBadDepth", StoreInt "MPGoodDepth") (removelast SetOption_chain)) as Hin
    by in_list.
  pose proof (find_none _ _ E _ Hin) as Hno. cbn [fst] in Hno.
  change (List.last SetOption_chain ("", StoreMultiPV))
    with ("MPBadDepth", StoreInt "MPBadDepth").
  cbn [List.find fst]. rewrite Hno. reflexivity.
Qed.

(** X9. Whatever the line, [setoption] changes no global but those in
    [writable_globals], the ones a statement of the chain that can be
    reached assigns to.  [MPBadDepth] is not among them: the only
    statement that assigns to it stands behind the second test for the
    same name. *)
Theorem SetOption_writable (str : string) (s s' : State) (x : string) :
  SetOption str s = Some s' ->
  (~ In x writable_globals -> globals s' !! x = globals s !! x) /\
  ~ In "MPBadDepth" writable_globals /\
  globals s' !! "MPBadDepth" = globals s !! "MPBadDepth".
Proof.
  intros Hset.
  assert (forall y, ~ In y writable_globals -> globals s' !! y = globals s !! y) as Hframe.
  { intros y Hy. revert Hset. unfold SetOption.
    destruct (optionName_of str) as [optionName|]; [|discriminate].
    rewrite chain_lookup_reachable.
    destruct (List.find _ _) as [[name a]|] eqn:E.
    - destruct (optionValue_of str) as [optionValue|]; [|discriminate].
      intros [= <-]. apply run_Action_frame. intros Hw.
      apply find_some in E as [Hin _].
      apply Hy. unfold writable_globals. apply in_flat_map.
      exists (name, a). split; [exact Hin|]. cbn [snd]. rewrite Hw. left. reflexivity.
    - intros [= <-]. reflexivity. }
  assert (~ In "MPBadDepth" writable_globals) as Hbad.
  { intros Hin.
    assert (existsb (String.eqb "MPBadDepth") writable_globals = false) as Hno
      by (vm_compute; reflexivity).
    assert (existsb (String.eqb "MPBadDepth") writable_globals = true) as Hyes
      by (apply existsb_exists; exists "MPBadDepth"; split;
          [exact Hin | apply String.eqb_refl]).
    congruence. }
  split; [apply Hframe|]. split; [exact Hbad|]. apply Hframe, Hbad.
Qed.


(** *** setoption: the spelling of names *)

Lemma OptionNameIs_first_char (optionName name : string) :
  match name with
  | EmptyString => False
  | String u _ =>
      match optionName with
      | EmptyString => u <> "000"%char
      | String c _ => c <> u
      end
  end ->
  OptionNameIs optionName name = false.
Proof.
  destruct name as [|u name]; [contradiction|].
  unfold OptionNameIs. cbn [strlen String.length strncmp].
  destruct optionName as [|c rest]; intros H; apply Z.eqb_neq; intros E.
  - apply H, uchar_code_nul. lia.
  - destruct (Ascii.eqb_spec c u) as [->|Hne]; [contradiction|].
    apply Hne, uchar_code_inj. lia.
Qed.

(** X11. Option names are compared as they are spelled: every name of the
    chain begins with a capital letter, so a name that is empty or begins
    with anything else, for instance with a small letter, is answered with
    "No such option." and changes nothing. *)
Theorem SetOption_needs_capital (str optionName : string) (s : State) :
  optionName_of str = Some optionName ->
  match optionName with
  | EmptyString => True
  | String c _ => ~ 65 <= uchar_code c <= 90
  end ->
  SetOption str s = Some (puts s "info string No such option.").
Proof.
  intros Hname Hcap. unfold SetOption. rewrite Hname.
  destruct (chain_lookup optionName) as [e|] eqn:E; [exfalso|reflexivity].
  apply find_some in E as [Hin Hmatch].
  assert (forallb (fun e => match fst e with
                            | EmptyString => false
                            | String u _ => (65 <=? uchar_code u) && (uchar_code u <=? 90)
                            end) SetOption_chain = true) as Hall
    by (vm_compute; reflexivity).
  rewrite forallb_forall in Hall. specialize (Hall _ Hin).
  rewrite OptionNameIs_first_char in Hmatch; [discriminate|].
  destruct (fst e) as [|u name]; [discriminate|].
  apply andb_true_iff in Hall as [Hlo Hhi].
  apply Z.leb_le in Hlo, Hhi.
  destruct optionName as [|c rest].
  - intros ->. vm_compute in Hlo. apply Hlo. reflexivity.
  - intros ->. apply Hcap. lia.
Qed.


(** *** setoption: names that shadow each other *)

(** X10. The six advertised names of [misrouted] do not reach the statement of
    their own name: a name tested earlier in the chain is a prefix of
    theirs (or, for [MPBadDepth], is the same name), and the value goes,
    as an [int], to the global of that earlier test. *)
Theorem SetOption_misrouted_targets
    (name target value : string) (s : State) :
  In (name, target) misrouted_targets ->
  SetOption (setoption_line name value) s
    = Some (with_global s target (VInt (atoi value))) /\
  target <> name /\ In name misrouted /\
  globals (with_global s target (VInt (atoi value))) !! name = globals s !! name.
Proof.
  intros Hin. unfold misrouted_targets in Hin. simpl in Hin.
  repeat (destruct Hin as [[= <- <-] | Hin];
          [ split; [run_chain|]; split; [discriminate|]; split; [in_list|];
            apply lookup_insert_ne; discriminate | ]).
  contradiction.
Qed.

(** *** Float tunables once more *)

(** X14. For a thousand steps either side of zero, a value given to a float
    tunable reads back from [uci] as itself or as the next integer toward
    zero, and as itself whenever it is a multiple of 25, a hundredth of
    which is a binary fraction. *)
Theorem float_tunable_read_back (v : Z) :
  -1000 <= v <= 1000 ->
  (shown_default Float100 v = v \/ shown_default Float100 v = v - Z.sgn v) /\
  (v mod 25 = 0 -> shown_default Float100 v = v).
Proof.
  intros Hv. split; [apply float_roundtrip_range, Hv|].
  assert (holds_from (fun v => negb (v mod 25 =? 0)
                               || (printed_default (stored_float v) =? v))
                     (-1000) (Z.to_nat 2001) = true) as Hall
    by (vm_compute; reflexivity).
  pose proof (holds_from_spec _ _ _ Hall v) as H. cbv beta in H.
  assert (-1000 <= v < -1000 + Z.of_nat (Z.to_nat 2001)) as Hr
    by (rewrite Z2Nat.id; lia).
  intros Hmod. apply H in Hr. apply orb_true_iff in Hr as [E|E].
  - apply negb_true_iff, Z.eqb_neq in E. contradiction.
  - apply Z.eqb_eq in E. exact E.
Qed.

End Engine.

(** ** Part III: the statements at concrete inputs *)

(** Two keywords and their hashes. *)
Lemma HashInput_keywords_distinct_witness :
  In "go" keywords /\ In "uci" keywords /\ HashInput "go" <> HashInput "uci".
Proof.
  split; [simpl; tauto|]. split; [simpl; tauto|].
  apply (HashInput_keywords_distinct "go" "uci"); [simpl; tauto | simpl; tauto | discriminate].
Defined.

(** The value text "truest" is not the literal "true", and it switches a
    boolean option on. *)
Lemma SetOption_boolean_literal_counterexample :
  "truest" <> "true" /\
  BooleanValue "truest" = true /\
  SetOption (setoption_line "UCI_Chess960" "truest") idle_State
    = Some (with_global idle_State "chess960" (VBool true)).
Proof.
  split; [discriminate|]. split; [reflexivity|].
  vm_compute. reflexivity.
Qed.

Lemma SetOption_boolean_true_prefix_witness :
  In ("NoobBook", "noobbook") boolean_options /\
  SetOption (setoption_line "NoobBook" "true") idle_State
    = Some (with_global idle_State "noobbook" (VBool (BooleanValue "true"))) /\
  (BooleanValue "true" = true <-> exists rest, "true" = "true" +:+ rest).
Proof.
  split; [simpl; tauto|].
  apply (SetOption_boolean_true_prefix "NoobBook" "noobbook" "true" idle_State).
  simpl; tauto.
Defined.

(** "Ponder" is not an option of the engine. *)
Lemma SetOption_unknown_name_witness :
  optionName_of "setoption name Ponder value true" = Some "Ponder value true" /\
  exists s',
    SetOption "setoption name Ponder value true" idle_State = Some s' /\
    stdout s' = stdout idle_State ++ ["info string No such option."] /\
    Limits s' = Limits idle_State /\ globals s' = globals idle_State /\
    ABORT_SIGNAL s' = ABORT_SIGNAL idle_State /\ calls s' = calls idle_State.
Proof.
  split; [reflexivity|].
  apply (SetOption_unknown_name "setoption name Ponder value true" "Ponder value true" idle_State).
  - reflexivity.
  - intros name Hin [rest H]. simpl in Hin.
    repeat (destruct Hin as [<- | Hin]; [simpl in H; discriminate H|]).
    contradiction.
Defined.

(** With [MATE = 31000] and [MATE_IN_MAX = 30001]: a mate against the
    engine in three plies, two moves. *)
Lemma PrintThinking_mate_score_witness :
  let rm := {| move := 1; score := -30997; pv := [796; 3364; 731] |} in
  let thread := Build_Thread unit tt 12 [rm] in
  let pr := {| elapsed := 100; nodes := 5000; tbhits := 0; hashFull := 10 |} in
  let s := with_Limits idle_State (set_multiPV zero_Limits 1) in
  (100 + 1) mod 2 ^ 64 <> 0 /\
  reported unit (Limits s) thread 0 /\
  30001 <= Z.abs (score rm) /\
  exists s',
    PrintThinking unit dec (fun _ _ => 0) 31000 30001
      thread (-31001) 31001 pr s = Some s' /\
    stdout s' !! 0%nat
    = Some ("info depth 12 seldepth 0 multipv 1 score mate -2"
              +:+ " time 100 nodes 5000 nps 49504 tbhits 0 hashfull 10"
              +:+ " pv 796 3364 731").
Proof.
  intros rm thread pr s.
  assert ((100 + 1) mod 2 ^ 64 <> 0) as Hdiv by (vm_compute; discriminate).
  assert (reported unit (Limits s) thread 0) as Hrep
    by (split; [reflexivity | repeat constructor; discriminate]).
  assert (30001 <= Z.abs (score rm)) as Hlo by (vm_compute; discriminate).
  split; [exact Hdiv|]. split; [exact Hrep|]. split; [exact Hlo|].
  destruct (PrintThinking_mate_score unit dec (fun _ _ => 0) 31000 30001
              thread (-31001) 31001 pr s 0%nat rm Hdiv eq_refl Hrep Hlo)
    as [(s' & Hs' & Hline) _].
  exists s'. split; [exact Hs' | exact Hline].
Defined.

(** A score on the upper edge of the window [10, 40]. *)
Lemma PrintThinking_bound_marker_witness :
  let rm := {| move := 1; score := 40; pv := [796; 3364; 731] |} in
  let thread := Build_Thread unit tt 12 [rm] in
  let pr := {| elapsed := 100; nodes := 5000; tbhits := 0; hashFull := 10 |} in
  let s := with_Limits idle_State (set_multiPV zero_Limits 1) in
  (100 + 1) mod 2 ^ 64 <> 0 /\
  reported unit (Limits s) thread 0 /\
  exists s',
    PrintThinking unit dec (fun _ _ => 0) 31000 30001 thread 10 40 pr s = Some s' /\
    stdout s' !! 0%nat
    = Some ("info depth 12 seldepth 0 multipv 1 score cp 40 lowerbound"
              +:+ " time 100 nodes 5000 nps 49504 tbhits 0 hashfull 10"
              +:+ " pv 796 3364 731").
Proof.
  intros rm thread pr s.
  assert ((100 + 1) mod 2 ^ 64 <> 0) as Hdiv by (vm_compute; discriminate).
  assert (reported unit (Limits s) thread 0) as Hrep
    by (split; [reflexivity | repeat constructor; discriminate]).
  split; [exact Hdiv|]. split; [exact Hrep|].
  destruct (PrintThinking_bound_marker unit dec (fun _ _ => 0) 31000 30001
              thread 10 40 pr s 0%nat rm Hdiv eq_refl Hrep)
    as (s' & marker & Hs' & Hline & Hlower & _).
  exists s'. split; [exact Hs'|].
  rewrite (Hlower ltac:(vm_compute; discriminate)) in Hline. exact Hline.
Defined.

(** With two words the writes stay inside an array of 64 entries. *)
Lemma ParseTimeControl_keeps_multiPV_witness :
  searchmoves_fit 64 "go searchmoves e2e4 d2d4" /\
  multiPV (ParseTimeControl Color (fun c => c) (fun w _ => HashInput w)
             "go searchmoves e2e4 d2d4" WHITE 7 (set_multiPV zero_Limits 3)) = 3.
Proof.
  assert (searchmoves_fit 64 "go searchmoves e2e4 d2d4") as Hfit
    by (vm_compute; repeat constructor).
  split; [exact Hfit|].
  destruct (ParseTimeControl_keeps_multiPV Color (fun c => c)
              (fun w _ => HashInput w) 64
              "go searchmoves e2e4 d2d4" WHITE 7 (set_multiPV zero_Limits 3)
              "3" [] idle_State Hfit (List.Forall_nil _)) as (_ & Hm & _).
  exact Hm.
Defined.

(** With sixty-five words the loop makes sixty-five writes, the last of
    them at index 64: outside an array of 64 entries. *)
Lemma ParseTimeControl_writes_outside_searchmoves :
  let line := "go searchmoves " +:+ join_words sixty_five_moves in
  length (searchmoves
            (ParseTimeControl Color (fun c => c) (fun w _ => HashInput w)
               line WHITE 7 (set_multiPV zero_Limits 3))) = 65%nat /\
  ~ searchmoves_fit 64 line.
Proof.
  intros line. split.
  - vm_compute. reflexivity.
  - unfold searchmoves_fit. vm_compute. intros H.
    repeat (apply le_S_n in H). inversion H.
Qed.


(** Three slots with principal variations of length 1, 0 and 2 and
    [multiPV = 3]: the only line is the one of the first slot. *)
Lemma PrintThinking_stops_at_empty_pv_witness :
  let a := {| move := 796; score := 31; pv := [796] |} in
  let b := {| move := 0; score := 0; pv := [] |} in
  let c := {| move := 731; score := 12; pv := [731; 3364] |} in
  let thread := Build_Thread unit tt 9 [a; b; c] in
  let pr := {| elapsed := 100; nodes := 5000; tbhits := 0; hashFull := 10 |} in
  let L := set_multiPV zero_Limits 3 in
  rootMoves unit thread = [a] ++ b :: [c] /\ pv b = [] /\ pv c <> [] /\
  PrintThinking_lines unit (fun _ _ => 0) 31000 30001 L thread (-31001) 31001 pr
  = [info_line unit (fun _ _ => 0) 31000 30001 thread (-31001) 31001 pr 0 a].
Proof.
  intros a b c thread pr L.
  split; [reflexivity|]. split; [reflexivity|]. split; [discriminate|].
  destruct (PrintThinking_stops_at_empty_pv unit (fun _ _ => 0) 31000 30001
              L thread (-31001) 31001 pr [a] [c] b eq_refl eq_refl) as [Heq _].
  etransitivity; [exact Heq | reflexivity].
Defined.

(** ** Part IV: the further properties at concrete inputs *)

(** "og" is dispatched like "go". *)
Lemma HashInput_rearranged_witness :
  Forall (fun c => token_char c = true) (chars "og") /\
  Permutation (chars "og") (chars "go") /\
  HashInput "og" = 11 /\
  HashInput ("og" +:+ String " " "depth 3") = HashInput ("go" +:+ String " " "infinite").
Proof.
  assert (Forall (fun c => token_char c = true) (chars "og")) as Htok
    by (repeat constructor).
  assert (Permutation (chars "og") (chars "go")) as Hperm by apply perm_swap.
  destruct (HashInput_rearranged "og" "go" "depth 3" "infinite" Htok Hperm)
    as (_ & Heq & Hlines).
  split; [exact Htok|]. split; [exact Hperm|]. split; [|exact Hlines].
  rewrite Heq. reflexivity.
Defined.

Lemma HashInput_below_128_witness :
  Forall (fun c => 0 <= char_code c) (chars "position") /\
  (length (chars "position") < 128)%nat /\
  0 <= HashInput "position" < 128 /\
  0 <= HashInput ("position" +:+ String " " "startpos moves e2e4") < 128.
Proof.
  assert (Forall (fun c => 0 <= char_code c) (chars "position")) as Hc
    by (repeat constructor; vm_compute; discriminate).
  assert (length (chars "position") < 128)%nat as Hlen by (simpl; lia).
  split; [exact Hc|]. split; [exact Hlen|].
  apply (HashInput_below_128 "position" "startpos moves e2e4" Hc Hlen).
Defined.

Lemma ParseTimeControl_no_keyword_witness :
  (forall k, In k go_keywords -> ~ occurs_in k "go") /\
  ParseTimeControl Color (fun c => c) (fun _ _ => 0) "go" WHITE 7
    (set_multiPV zero_Limits 3)
  = {| start := 7; time := 0; inc := 0; movestogo := 0; movetime := 0;
       depth := 100; mate := 0; timelimit := false; infinite := false;
       searchmoves := []; multiPV := 3 |}.
Proof.
  assert (forall k, In k go_keywords -> ~ occurs_in k "go") as Hno.
  { intros k Hk Hocc. apply strstr_occurs in Hocc. simpl in Hk.
    repeat (destruct Hk as [<-|Hk]; [vm_compute in Hocc; discriminate Hocc|]).
    contradiction. }
  split; [exact Hno|].
  apply (ParseTimeControl_no_keyword Color (fun c => c) (fun _ _ => 0)
           "go" WHITE 7 (set_multiPV zero_Limits 3) Hno).
Defined.

(** Black to move and only White's clock on the line. *)
Lemma ParseTimeControl_other_clock_witness :
  ~ occurs_in (side_token Color (fun c => c) BLACK "wtime" "btime")
      "go wtime 60000 winc 1000" /\
  ~ occurs_in "movetime" "go wtime 60000 winc 1000" /\
  time (ParseTimeControl Color (fun c => c) (fun _ _ => 0)
          "go wtime 60000 winc 1000" BLACK 7 zero_Limits) = 0 /\
  timelimit (ParseTimeControl Color (fun c => c) (fun _ _ => 0)
               "go wtime 60000 winc 1000" BLACK 7 zero_Limits) = false.
Proof.
  assert (~ occurs_in (side_token Color (fun c => c) BLACK "wtime" "btime")
            "go wtime 60000 winc 1000") as H1
    by (intros Hocc; apply strstr_occurs in Hocc; vm_compute in Hocc; discriminate Hocc).
  assert (~ occurs_in "movetime" "go wtime 60000 winc 1000") as H2
    by (intros Hocc; apply strstr_occurs in Hocc; vm_compute in Hocc; discriminate Hocc).
  split; [exact H1|]. split; [exact H2|].
  apply (ParseTimeControl_other_clock Color (fun c => c) (fun _ _ => 0)
           "go wtime 60000 winc 1000" BLACK 7 zero_Limits H1 H2).
Defined.

Lemma ParseTimeControl_searchmoves_witness :
  Forall (fun w => is_word w = true) ["e2e4"; "d2d4"] /\
  (length ["e2e4"; "d2d4"] <= 64)%nat /\
  searchmoves
    (ParseTimeControl Color (fun c => c) (fun w _ => HashInput w)
       ("go searchmoves " +:+ join_words ["e2e4"; "d2d4"]) WHITE 7 zero_Limits)
  = List.map (fun w => (fun w (_ : Color) => HashInput w) w WHITE) ["e2e4"; "d2d4"].
Proof.
  assert (Forall (fun w => is_word w = true) ["e2e4"; "d2d4"]) as Hws
    by (repeat constructor).
  assert (length ["e2e4"; "d2d4"] <= 64)%nat as Hlen by (simpl; lia).
  split; [exact Hws|]. split; [exact Hlen|].
  apply (ParseTimeControl_searchmoves Color (fun c => c) (fun w _ => HashInput w) 64
           ["e2e4"; "d2d4"] WHITE 7 zero_Limits Hws Hlen).
Defined.

(** "go depth 12" and "go movetime 12". *)
Lemma ParseTimeControl_reads_decimal_witness :
  is_int 12 /\
  depth (ParseTimeControl Color (fun c => c) (fun _ _ => 0)
           ("go depth " +:+ dec 12) WHITE 7 zero_Limits) = 12 /\
  movetime (ParseTimeControl Color (fun c => c) (fun _ _ => 0)
              ("go movetime " +:+ dec 12) WHITE 7 zero_Limits) = 12.
Proof.
  assert (is_int 12) as Hint by (unfold is_int; lia).
  split; [exact Hint|].
  destruct (ParseTimeControl_reads_decimal Color (fun c => c) (fun _ _ => 0)
              12 "go" WHITE 7 zero_Limits Hint) as (Hd & Hm & _).
  split; [exact Hd | exact Hm].
Defined.

Lemma SetOption_one_effect_witness :
  SetOption "setoption name Hash value 16" idle_State
    = Some (call idle_State (RequestTTSize 16)) /\
  ((exists c, call idle_State (RequestTTSize 16) = call idle_State c) \/
   (exists n, call idle_State (RequestTTSize 16)
              = with_Limits idle_State (set_multiPV (Limits idle_State) n)) \/
   (exists var v, call idle_State (RequestTTSize 16) = with_global idle_State var v) \/
   call idle_State (RequestTTSize 16) = puts idle_State "info string No such option.").
Proof.
  assert (SetOption "setoption name Hash value 16" idle_State
          = Some (call idle_State (RequestTTSize 16))) as H by reflexivity.
  split; [exact H|].
  apply (SetOption_one_effect "setoption name Hash value 16" idle_State _ H).
Defined.

(** 53 given to the float tunable [LMRNoisyBase] is listed as 52. *)
Lemma setoption_then_uci_witness :
  In ("LMRNoisyBase", Float100) Info_tunables /\
  ~ In "LMRNoisyBase" misrouted /\
  is_int (atoi "53") /\
  exists s',
    SetOption (setoption_line "LMRNoisyBase" "53") idle_State = Some s' /\
    In (spin_line "LMRNoisyBase" 52 (-100000) 100000)
       (Info_lines "Weiss" 32 2 65536 64 s').
Proof.
  assert (In ("LMRNoisyBase", Float100) Info_tunables) as Hin by (left; reflexivity).
  assert (~ In "LMRNoisyBase" misrouted) as Hmis.
  { intros H. simpl in H. repeat (destruct H as [H|H]; [discriminate H|]). exact H. }
  assert (is_int (atoi "53")) as Hint
    by (split; vm_compute; [discriminate | reflexivity]).
  split; [exact Hin|]. split; [exact Hmis|]. split; [exact Hint|].
  destruct (setoption_then_uci "Weiss" 32 2 65536 64
              ("LMRNoisyBase", Float100) "53" idle_State Hin Hmis Hint)
    as (s' & Hset & Hline & _).
  exists s'. split; [exact Hset|]. exact Hline.
Defined.

Lemma uci_default_fed_back_witness :
  In ("IIRDepth", Int) Info_tunables /\ ~ In "IIRDepth" misrouted /\
  exists s',
    SetOption (setoption_line "IIRDepth" "0") idle_State = Some s' /\
    globals s' !! "IIRDepth" = Some (VInt 0) /\
    Info_lines "Weiss" 32 2 65536 64 s' = Info_lines "Weiss" 32 2 65536 64 idle_State.
Proof.
  assert (In ("IIRDepth", Int) Info_tunables) as Hin by (simpl; tauto).
  assert (~ In "IIRDepth" misrouted) as Hmis.
  { intros H. simpl in H. repeat (destruct H as [H|H]; [discriminate H|]). exact H. }
  split; [exact Hin|]. split; [exact Hmis|].
  apply (uci_default_fed_back "Weiss" 32 2 65536 64
           ("IIRDepth", Int) idle_State Hin eq_refl Hmis).
Defined.

Lemma MultiPV_below_one_silences_witness :
  is_int (atoi "0") /\ atoi "0" <= 0 /\
  exists s',
    SetOption (setoption_line "MultiPV" "0") idle_State = Some s' /\
    multiPV (Limits s') = atoi "0" /\
    forall (thread : Thread unit) (alpha beta : Z) (pr : Probe),
      PrintThinking_lines unit (fun _ _ => 0) 31000 30001
        (Limits s') thread alpha beta pr = [] /\
      ((elapsed pr + 1) mod 2 ^ 64 <> 0 ->
       PrintThinking unit (fun _ => "") (fun _ _ => 0) 31000 30001
         thread alpha beta pr s' = Some s').
Proof.
  assert (is_int (atoi "0")) as Hint
    by (split; vm_compute; [discriminate | reflexivity]).
  assert (atoi "0" <= 0) as Hv by (vm_compute; discriminate).
  split; [exact Hint|]. split; [exact Hv|].
  apply (MultiPV_below_one_silences unit (fun _ => "") (fun _ _ => 0) 31000 30001
           "0" idle_State Hint Hv).
Defined.

(** Three million nodes in the first millisecond. *)
Lemma nps_of_spec_witness :
  0 <= 3000000 /\ 1000 * 3000000 < 2 ^ 64 /\ 0 <= 0 /\ 0 + 1 < 2 ^ 64 /\
  2 ^ 31 <= 1000 * 3000000 / (0 + 1) < 2 ^ 32 /\
  nps_of 3000000 0 = 1000 * 3000000 / (0 + 1) - 2 ^ 32 /\
  nps_of 3000000 0 < 0.
Proof.
  assert (2 ^ 31 <= 1000 * 3000000 / (0 + 1) < 2 ^ 32) as Hq
    by (split; vm_compute; [discriminate | reflexivity]).
  split; [lia|]. split; [reflexivity|]. split; [lia|]. split; [reflexivity|].
  split; [exact Hq|].
  apply (nps_of_spec 3000000 0); [lia | reflexivity | lia | reflexivity | exact Hq].
Defined.

Lemma SetOption_writable_witness :
  SetOption "setoption name MPBadDepth value 7" idle_State
    = Some (with_global idle_State "MPGoodDepth" (VInt 7)) /\
  ~ In "MPBadDepth" writable_globals /\
  globals (with_global idle_State "MPGoodDepth" (VInt 7)) !! "MPBadDepth"
    = globals idle_State !! "MPBadDepth".
Proof.
  assert (SetOption "setoption name MPBadDepth value 7" idle_State
          = Some (with_global idle_State "MPGoodDepth" (VInt 7))) as H
    by reflexivity.
  split; [exact H|].
  destruct (SetOption_writable _ _ _ "MPBadDepth" H) as (_ & Hbad & Hsame).
  split; [exact Hbad | exact Hsame].
Defined.

(** The name in small letters. *)
Lemma SetOption_needs_capital_witness :
  optionName_of "setoption name hash value 16" = Some "hash value 16" /\
  ~ 65 <= uchar_code "h" <= 90 /\
  SetOption "setoption name hash value 16" idle_State
    = Some (puts idle_State "info string No such option.").
Proof.
  assert (~ 65 <= uchar_code "h" <= 90) as Hcap by (vm_compute; intros [_ H]; apply H; reflexivity).
  split; [reflexivity|]. split; [exact Hcap|].
  apply (SetOption_needs_capital "setoption name hash value 16" "hash value 16"
           idle_State eq_refl Hcap).
Defined.

Lemma SetOption_misrouted_targets_witness :
  In ("TrendDiv", "Trend") misrouted_targets /\
  SetOption (setoption_line "TrendDiv" "150") idle_State
    = Some (with_global idle_State "Trend" (VInt (atoi "150"))) /\
  "Trend" <> "TrendDiv".
Proof.
  assert (In ("TrendDiv", "Trend") misrouted_targets) as Hin
    by (simpl; right; right; right; left; reflexivity).
  destruct (SetOption_misrouted_targets "TrendDiv" "Trend" "150" idle_State Hin)
    as (Hset & Hne & _).
  split; [exact Hin|]. split; [exact Hset | exact Hne].
Defined.

Lemma float_tunable_read_back_witness :
  -1000 <= 175 <= 1000 /\ 175 mod 25 = 0 /\ shown_default Float100 175 = 175.
Proof.
  assert (-1000 <= 175 <= 1000) as Hv by lia.
  split; [exact Hv|]. split; [reflexivity|].
  apply (float_tunable_read_back 175 Hv). reflexivity.
Defined.
